(** * errors.ts: the coded-error registry of import-meta-resolve

    A shallow embedding of [src/errors.ts] (the error factory that was
    tree-shaken out of Node's [lib/internal/errors.js]) and the properties
    of it that the specification states.

    Layout:
    - [JS]: the fragment of JavaScript the module runs on: values, the
      coercions of template literals and conditions, strings, JSON, thrown
      completions;
    - the host ([Host]): [process.platform] and the parts of [util] the
      module imports;
    - message rules, the [messages] registry and [getMessage];
    - the global [Error.stackTraceLimit], error objects, the trace capture
      and [NodeError];
    - the theorems, one block per claim. *)

From Stdlib Require Import Ascii String ZArith Lia.
From stdpp Require Import base option list strings pretty gmap fin_maps.

Open Scope Z_scope.
Open Scope nat_scope.

(* ===================================================================== *)
(** ** The JavaScript fragment                                            *)
(* ===================================================================== *)

Module JS.

(** Numbers: the integer-valued doubles, and the three non-finite ones.
    [Error.stackTraceLimit] is one of these ([10], [0], [Infinity]). *)
Inductive number :=
| Int (z : Z)
| NaN
| Infinity
| NegInfinity.

(** What a [TypeError] of the language is about; the text of its message
    is made from this and from nothing else. *)
Inductive type_error :=
| ReadOfNullish (property : string)  (* a property read of undefined or null *)
| NotAFunction (property : string)   (* a call of a property that is no function *)
| NotSerializable                    (* JSON.stringify of a BigInt or of a cycle *)
| CannotAssign                       (* a strict assignment that is refused *)
| CannotDefine.                      (* a property definition that is refused *)

(** What a JavaScript operation can throw here: [assert] failures (with
    the message given to [assert], if one was given), the [TypeError]s
    of the language itself, and whatever code that belongs to an argument
    throws (a getter, a [toJSON], a custom inspection). *)
Inductive exn :=
| AssertionError (message : option string)
| TypeError (cause : type_error)
| Thrown (description : string).

Inductive result (A : Type) :=
| Ok (a : A)
| Throw (e : exn).
Arguments Ok {A} a.
Arguments Throw {A} e.

(** An object other than a [URL] (a plain object, an array, a function),
    by what this module can observe of it: the string it converts to,
    what [JSON.stringify] makes of it (a string, [undefined], or a throw:
    a cycle, a throwing [toJSON]), what reading its [protocol] and
    [length] gives, and what calling its [includes] with ["."] gives (the
    truth value of the result, or a throw: a plain object has no such
    method). *)
Record object := {
  obj_string : string;
  obj_json : result (option string);
  obj_protocol : result (option string);
  obj_length : result (option Z);
  obj_includes_dot : result bool;
}.

(** The values that reach the constructors of this module: primitives,
    [URL] objects (of a [URL] only [href] and [protocol] are observed)
    and other objects. A string is a sequence of code units, here the
    ones below 256, one [ascii] each; [String.length] and
    [String.substring] are [.length] and [.slice]. *)
Inductive value :=
| VUndefined
| VNull
| VBool (b : bool)
| VNum (n : number)
| VBigInt (z : Z)
| VStr (s : string)
| VUrl (href protocol : string)
| VObject (o : object).

#[global] Instance number_eq_dec : EqDecision number.
Proof. solve_decision. Defined.

#[global] Instance type_error_eq_dec : EqDecision type_error.
Proof. solve_decision. Defined.

#[global] Instance exn_eq_dec : EqDecision exn.
Proof. solve_decision. Defined.

#[global] Instance result_eq_dec `{EqDecision A} : EqDecision (result A).
Proof. solve_decision. Defined.

#[global] Instance object_eq_dec : EqDecision object.
Proof. solve_decision. Defined.

#[global] Instance value_eq_dec : EqDecision value.
Proof. solve_decision. Defined.

Definition rbind {A B} (r : result A) (k : A → result B) : result B :=
  match r with
  | Ok a => k a
  | Throw e => Throw e
  end.

#[global] Instance result_ret : MRet result := λ A, Ok.
#[global] Instance result_bind : MBind result := λ A B k r, rbind r k.
#[global] Instance result_fmap : FMap result := λ A B f r,
  match r with Ok a => Ok (f a) | Throw e => Throw e end.

(** The double quote and the backslash, as one-character strings. *)
Definition dq : string := String "034"%char EmptyString.
Definition backslash : string := String "092"%char EmptyString.

(** [Number::toString] on the numbers above (for an integer, its decimal
    digits: the form JavaScript prints below 1e21). *)
Definition number_to_string (n : number) : string :=
  match n with
  | Int z => pretty z
  | NaN => "NaN"
  | Infinity => "Infinity"
  | NegInfinity => "-Infinity"
  end.

(** [ToString], the coercion of [`${x}`]. A [URL] stringifies to its
    [href]. *)
Definition ToString (v : value) : string :=
  match v with
  | VUndefined => "undefined"
  | VNull => "null"
  | VBool true => "true"
  | VBool false => "false"
  | VNum n => number_to_string n
  | VBigInt z => pretty z
  | VStr s => s
  | VUrl href _ => href
  | VObject o => obj_string o
  end.

(** [ToBoolean], the coercion of [x ? a : b], [!x] and [&&]. *)
Definition ToBoolean (v : value) : bool :=
  match v with
  | VUndefined | VNull => false
  | VBool b => b
  | VNum (Int z) => negb (Z.eqb z 0)
  | VNum NaN => false
  | VNum _ => true
  | VBigInt z => negb (Z.eqb z 0)
  | VStr s => negb (Nat.eqb (String.length s) 0)
  | VUrl _ _ => true
  | VObject _ => true
  end.

(** [typeof v === 'string'] *)
Definition is_string (v : value) : bool :=
  match v with VStr _ => true | _ => false end.

(** [v === s] for a string literal [s] *)
Definition strict_eq_str (v : value) (s : string) : bool :=
  match v with VStr t => bool_decide (t = s) | _ => false end.

(** [s.startsWith(p)], [s.includes(p)], [s.slice(0, n)] *)
Definition startsWith (p s : string) : bool := String.prefix p s.

Definition includes (p s : string) : bool :=
  match String.index 0 p s with Some _ => true | None => false end.

Definition slice0 (n : nat) (s : string) : string := String.substring 0 n s.

Definition option_value (o : option string) : value :=
  match o with Some s => VStr s | None => VUndefined end.

(** [v.includes('.')] as a method call on an arbitrary value, and the
    truth value of what it returns: strings have the method; on
    [undefined] and [null] the property read throws; on the other
    primitives and on a [URL] the call of [undefined] does; an object
    answers for itself. *)
Definition call_includes_dot (v : value) : result bool :=
  match v with
  | VStr s => Ok (includes "." s)
  | VUndefined | VNull => Throw (TypeError (ReadOfNullish "includes"))
  | VObject o => obj_includes_dot o
  | _ => Throw (TypeError (NotAFunction "includes"))
  end.

(** [v.protocol] *)
Definition get_protocol (v : value) : result value :=
  match v with
  | VUndefined | VNull => Throw (TypeError (ReadOfNullish "protocol"))
  | VUrl _ protocol => Ok (VStr protocol)
  | VObject o => option_value <$> obj_protocol o
  | _ => Ok VUndefined
  end.

(** [v.length] *)
Definition get_length (v : value) : result value :=
  match v with
  | VUndefined | VNull => Throw (TypeError (ReadOfNullish "length"))
  | VStr s => Ok (VNum (Int (Z.of_nat (String.length s))))
  | VObject o =>
      (λ l, match l with Some z => VNum (Int z) | None => VUndefined end)
        <$> obj_length o
  | _ => Ok VUndefined
  end.

(** [JSON.stringify]: quoting of a string ([QuoteJSONString]). *)
Definition hex_digit (n : nat) : ascii :=
  ascii_of_nat (if Nat.ltb n 10 then 48 + n else 87 + n).

Definition quote_char (c : ascii) : string :=
  let n := nat_of_ascii c in
  if Nat.eqb n 8 then backslash +:+ "b"
  else if Nat.eqb n 9 then backslash +:+ "t"
  else if Nat.eqb n 10 then backslash +:+ "n"
  else if Nat.eqb n 12 then backslash +:+ "f"
  else if Nat.eqb n 13 then backslash +:+ "r"
  else if Nat.eqb n 34 then backslash +:+ dq
  else if Nat.eqb n 92 then backslash +:+ backslash
  else if Nat.ltb n 32 then
    backslash +:+ "u00" +:+
    String (hex_digit (n / 16)) (String (hex_digit (n mod 16)) EmptyString)
  else String c EmptyString.

Fixpoint quote_body (s : string) : string :=
  match s with
  | EmptyString => EmptyString
  | String c tl => quote_char c +:+ quote_body tl
  end.

Definition QuoteJSONString (s : string) : string := dq +:+ quote_body s +:+ dq.

(** [JSON.stringify(v)]: a string, [undefined], or a throw (a BigInt
    cannot be serialised, nor can an object with a cycle). Non-finite
    numbers become [null]; a [URL] has a [toJSON] that returns its
    [href]. *)
Definition JSON_stringify (v : value) : result value :=
  match v with
  | VUndefined => Ok VUndefined
  | VNull => Ok (VStr "null")
  | VBool _ => Ok (VStr (ToString v))
  | VNum (Int z) => Ok (VStr (pretty z))
  | VNum _ => Ok (VStr "null")
  | VBigInt _ => Throw (TypeError NotSerializable)
  | VStr s => Ok (VStr (QuoteJSONString s))
  | VUrl href _ => Ok (VStr (QuoteJSONString href))
  | VObject o => option_value <$> obj_json o
  end.

(** [assert(cond, message)] and [assert(cond)] *)
Definition assert (cond : bool) (message : option string) : result unit :=
  if cond then Ok tt else Throw (AssertionError message).

End JS.
Export JS.


(* ===================================================================== *)
(** ** The host                                                           *)
(* ===================================================================== *)

(** What the module takes from its environment: the platform flag and the
    renderings of Node's [util], which the module imports and does not
    define. *)
Record Host := {
  (** [process.platform === 'win32'] *)
  isWindows : bool;
  (** [util.inspect(v)]: a rendering, or what a custom inspection of
      the value throws *)
  inspect : value → result string;
  (** how [util.format] renders an argument under a placeholder kind,
      other than a string under [%s]; it can throw as well (under [%s]
      it calls the [toString] of an object that has its own) *)
  format_spec : ascii → value → result string;
  (** how [util.format] renders an argument that is not a string and that
      no placeholder consumed *)
  format_surplus : value → result string;
}.

(* ===================================================================== *)
(** ** The global [Error.stackTraceLimit] and the module variable         *)
(* ===================================================================== *)

(** The own property [stackTraceLimit] of the [Error] constructor, as
    [Object.getOwnPropertyDescriptor] shows it: a data property, or an
    accessor over a cell that its getter reads and its setter writes. *)
Inductive limit_property :=
| Data (v : value) (writable : bool)
| Accessor (cell : value) (has_get has_set : bool).

Record Global := {
  stackTraceLimit : option limit_property;
  (** [Object.isExtensible(Error)] *)
  Error_extensible : bool;
  (** [let userStackTraceLimit] *)
  userStackTraceLimit : value;
}.

(** State and thrown completions: the state at the throw is kept. *)
Definition M (A : Type) : Type := Global → result A * Global.

#[global] Instance M_ret : MRet M := λ A a g, (Ok a, g).
#[global] Instance M_bind : MBind M := λ A B k m g,
  match m g with
  | (Ok a, g') => k a g'
  | (Throw e, g') => (Throw e, g')
  end.

Definition lift {A} (r : result A) : M A := λ g, (r, g).

(** [Error.stackTraceLimit] read as an expression. *)
Definition limit_of (g : Global) : value :=
  match stackTraceLimit g with
  | None => VUndefined
  | Some (Data v _) => v
  | Some (Accessor cell has_get _) => if has_get then cell else VUndefined
  end.

Definition read_limit : M value := λ g, (Ok (limit_of g), g).

Definition with_limit (p : limit_property) (g : Global) : Global :=
  {| stackTraceLimit := Some p;
     Error_extensible := Error_extensible g;
     userStackTraceLimit := userStackTraceLimit g |}.

(** [Error.stackTraceLimit = v] in strict code (a module is strict). *)
Definition write_limit (v : value) : M unit := λ g,
  match stackTraceLimit g with
  | None =>
      if Error_extensible g then (Ok tt, with_limit (Data v true) g)
      else (Throw (TypeError CannotAssign), g)
  | Some (Data _ w) =>
      if w then (Ok tt, with_limit (Data v true) g) else (Throw (TypeError CannotAssign), g)
  | Some (Accessor _ has_get has_set) =>
      if has_set then (Ok tt, with_limit (Accessor v has_get has_set) g)
      else (Throw (TypeError CannotAssign), g)
  end.

Definition read_user : M value := λ g, (Ok (userStackTraceLimit g), g).

Definition write_user (v : value) : M unit := λ g,
  (Ok tt, {| stackTraceLimit := stackTraceLimit g;
             Error_extensible := Error_extensible g;
             userStackTraceLimit := v |}).

(** [isErrorStackTraceLimitWritable] *)
Definition limit_writable (g : Global) : bool :=
  match stackTraceLimit g with
  | None => Error_extensible g
  | Some (Data _ w) => w
  | Some (Accessor _ _ has_set) => has_set
  end.

Definition isErrorStackTraceLimitWritable : M bool :=
  λ g, (Ok (limit_writable g), g).

(* ===================================================================== *)
(** ** Error objects                                                      *)
(* ===================================================================== *)

Record property := {
  p_value : value;
  enumerable : bool;
  writable : bool;
  configurable : bool;
}.

(** The trace of an error: the frame limit in force when it was recorded,
    and, once [.stack] has been read, the header line it was formatted
    with. *)
Inductive stack_state :=
| Recorded (limit : value)
| Formatted (limit : value) (header : string).

(** An error object: the class it was made by (whose prototype supplies
    [name] as long as the object has none of its own), and its own
    properties. [err_toString] is the own [toString] that [NodeError]
    defines: the closure, held by the [key] it closes over. *)
Record error_obj := {
  err_class : string;
  err_extensible : bool;
  err_name : option property;
  err_message : option property;
  err_toString : option string;
  err_code : option property;
  err_stack : stack_state;
}.

(** [e.name], [e.message], [e.code] read as expressions *)
Definition get_name (e : error_obj) : value :=
  match err_name e with Some p => p_value p | None => VStr (err_class e) end.

Definition get_message (e : error_obj) : value :=
  match err_message e with Some p => p_value p | None => VStr "" end.

Definition get_code (e : error_obj) : value :=
  match err_code e with Some p => p_value p | None => VUndefined end.

(** [Object.defineProperty(o, k, {value, enumerable, writable,
    configurable: true})] on the slot of [k] *)
Definition define_own (extensible : bool) (cur : option property)
    (new : property) : result (option property) :=
  match cur with
  | None => if extensible then Ok (Some new) else Throw (TypeError CannotDefine)
  | Some p => if configurable p then Ok (Some new) else Throw (TypeError CannotDefine)
  end.

(** [o.k = v] in strict code on the slot of [k], for a [k] that the
    prototype chain holds as a writable data property or not at all *)
Definition assign_own (extensible : bool) (cur : option property)
    (v : value) : result (option property) :=
  match cur with
  | None =>
      if extensible
      then Ok (Some {| p_value := v; enumerable := true;
                       writable := true; configurable := true |})
      else Throw (TypeError CannotAssign)
  | Some p =>
      if writable p
      then Ok (Some {| p_value := v; enumerable := enumerable p;
                       writable := true; configurable := configurable p |})
      else Throw (TypeError CannotAssign)
  end.

Definition set_err_name (e : error_obj) (n : option property) : error_obj :=
  {| err_class := err_class e; err_extensible := err_extensible e;
     err_name := n; err_message := err_message e;
     err_toString := err_toString e; err_code := err_code e;
     err_stack := err_stack e |}.

Definition set_err_message (e : error_obj) (m : option property) : error_obj :=
  {| err_class := err_class e; err_extensible := err_extensible e;
     err_name := err_name e; err_message := m;
     err_toString := err_toString e; err_code := err_code e;
     err_stack := err_stack e |}.

Definition set_err_toString (e : error_obj) (k : option string) : error_obj :=
  {| err_class := err_class e; err_extensible := err_extensible e;
     err_name := err_name e; err_message := err_message e;
     err_toString := k; err_code := err_code e;
     err_stack := err_stack e |}.

Definition set_err_code (e : error_obj) (c : option property) : error_obj :=
  {| err_class := err_class e; err_extensible := err_extensible e;
     err_name := err_name e; err_message := err_message e;
     err_toString := err_toString e; err_code := c;
     err_stack := err_stack e |}.

Definition set_err_stack (e : error_obj) (s : stack_state) : error_obj :=
  {| err_class := err_class e; err_extensible := err_extensible e;
     err_name := err_name e; err_message := err_message e;
     err_toString := err_toString e; err_code := err_code e;
     err_stack := s |}.

(** [e.name = v], [e.code = v] and (after construction) [e.message = v] *)
Definition assign_name (e : error_obj) (v : value) : result error_obj :=
  n ← assign_own (err_extensible e) (err_name e) v; Ok (set_err_name e n).

Definition assign_code (e : error_obj) (v : value) : result error_obj :=
  c ← assign_own (err_extensible e) (err_code e) v; Ok (set_err_code e c).

Definition assign_message (e : error_obj) (v : value) : result error_obj :=
  m ← assign_own (err_extensible e) (err_message e) v; Ok (set_err_message e m).

(** The header line of a trace: [name: message], with the fallbacks of
    [Error.prototype.toString]. *)
Definition header_text (name msg : string) : string :=
  if bool_decide (name = "") then msg
  else if bool_decide (msg = "") then name
  else name +:+ ": " +:+ msg.

Definition header_of (e : error_obj) : string :=
  header_text
    (match get_name e with VUndefined => "Error" | v => ToString v end)
    (match get_message e with VUndefined => "" | v => ToString v end).

(** [e.stack] read as an expression statement: the trace is formatted on
    its first read, with the name and message of that moment. *)
Definition read_stack (e : error_obj) : error_obj :=
  match err_stack e with
  | Recorded l => set_err_stack e (Formatted l (header_of e))
  | Formatted _ _ => e
  end.

(** [e.toString()] *)
Definition call_toString (e : error_obj) : string :=
  match err_toString e with
  | Some key =>
      ToString (get_name e) +:+ " [" +:+ key +:+ "]: " +:+ ToString (get_message e)
  | None => header_of e
  end.

(** [Error.captureStackTrace(e)]: records the frames under the limit in
    force; it defines [stack] on [e], which an object that is not
    extensible refuses. (The engine records frames when the limit is a
    number held by a data property, see [limit_is_number]; what is said
    of the content of a trace is said for those states.) *)
Definition captureStackTrace (e : error_obj) : M error_obj := λ g,
  if err_extensible e
  then (Ok (set_err_stack e (Recorded (limit_of g))), g)
  else (Throw (TypeError CannotDefine), g).

(** The base classes. [new Base()] of a built-in error class gives an
    extensible object without own [name], [message] or [code], its trace
    recorded under the limit in force. *)
Record ErrorConstructor := { class_name : string }.

Definition Error_ : ErrorConstructor := {| class_name := "Error" |}.
Definition TypeError_ : ErrorConstructor := {| class_name := "TypeError" |}.

Definition fresh (Base : ErrorConstructor) (limit : value) : error_obj :=
  {| err_class := class_name Base; err_extensible := true;
     err_name := None; err_message := None; err_toString := None;
     err_code := None; err_stack := Recorded limit |}.

Definition new_ (Base : ErrorConstructor) : M error_obj := λ g,
  (Ok (fresh Base (limit_of g)), g).

(* ===================================================================== *)
(** ** Message rules                                                      *)
(* ===================================================================== *)

(** The declared type of a parameter. *)
Inductive ptype := TString | TBoolean | TUrl | TUnknown | TAny | TOptString.

Definition has_type (t : ptype) (v : value) : bool :=
  match t, v with
  | TString, VStr _ => true
  | TBoolean, VBool _ => true
  | TUrl, VUrl _ _ => true
  | TOptString, (VStr _ | VUndefined) => true
  | (TUnknown | TAny), _ => true
  | _, _ => false
  end.

(** A parameter of a message function: its declared type and, for
    [p = d], its default. *)
Record param := {
  p_name : string;
  p_type : ptype;
  p_default : option value;
}.

Definition required (name : string) (t : ptype) : param :=
  {| p_name := name; p_type := t; p_default := None |}.

Definition optional (name : string) (t : ptype) (d : value) : param :=
  {| p_name := name; p_type := t; p_default := Some d |}.

(** A message function: its parameter list and its body over the bound
    parameters. *)
Record MessageFunction := {
  fn_params : list param;
  fn_body : list value → result string;
}.

(** [f.length]: the parameters before the first one with a default. *)
Fixpoint leading_required (ps : list param) : nat :=
  match ps with
  | [] => 0
  | p :: ps' =>
      match p_default p with
      | None => S (leading_required ps')
      | Some _ => 0
      end
  end.

Definition fn_length (f : MessageFunction) : nat := leading_required (fn_params f).

(** Binding of arguments to parameters at a call: by position, a missing
    argument is [undefined], and a parameter with a default takes it when
    its argument is [undefined]; surplus arguments are dropped. *)
Fixpoint bind_params (ps : list param) (args : list value) : list value :=
  match ps with
  | [] => []
  | p :: ps' =>
      let v := match args with [] => VUndefined | a :: _ => a end in
      let v' := match p_default p, v with
                | Some d, VUndefined => d
                | _, _ => v
                end in
      v' :: bind_params ps' (tail args)
  end.

(** [Reflect.apply(f, self, args)]; the rules are arrow functions, which
    have no receiver of their own. *)
Definition apply_fn (f : MessageFunction) (args : list value) : result string :=
  fn_body f (bind_params (fn_params f) args).

(** The [i]-th bound parameter *)
Definition arg (i : nat) (vs : list value) : value := default VUndefined (vs !! i).

Inductive MessageRule :=
| RuleFn (f : MessageFunction)
| RuleStr (template : string).

(** [(message.match(/%[dfijoOs]/g) || []).length] *)
Definition is_placeholder (c : ascii) : bool :=
  bool_decide (c ∈ ["d"; "f"; "i"; "j"; "o"; "O"; "s"]%char).

Fixpoint count_placeholders (s : string) : nat :=
  match s with
  | EmptyString => 0
  | String c tl =>
      if bool_decide (c = "%"%char) then
        match tl with
        | EmptyString => 0
        | String d rest =>
            if is_placeholder d then S (count_placeholders rest)
            else count_placeholders tl
        end
      else count_placeholders tl
  end.

Section WithHost.

Variable h : Host.

(** Node's [util.format(template, ...args)], which the module imports: a
    template alone is returned as it is; otherwise a [%] with one of
    [sdifjoOc] after it consumes the next argument while one is left,
    [%%] becomes [%], everything else is copied, and the arguments left
    over are appended, each after a space. *)
Definition is_format_spec (c : ascii) : bool :=
  bool_decide (c ∈ ["s"; "d"; "i"; "f"; "j"; "o"; "O"; "c"]%char).

Definition format_arg (kind : ascii) (v : value) : result string :=
  match v with
  | VStr s =>
      if bool_decide (kind = "s"%char) then Ok s else format_spec h kind v
  | _ => format_spec h kind v
  end.

Fixpoint format_go (tmpl : string) (args : list value)
    : result (string * list value) :=
  match tmpl with
  | EmptyString => Ok (EmptyString, args)
  | String c tl =>
      if bool_decide (c = "%"%char) then
        match tl with
        | EmptyString => Ok (String c EmptyString, args)
        | String d rest =>
            if bool_decide (d = "%"%char) then
              '(s, a) ← format_go rest args; Ok (String d s, a)
            else
              match args with
              | v :: args' =>
                  if is_format_spec d then
                    s1 ← format_arg d v;
                    '(s, a) ← format_go rest args'; Ok (s1 +:+ s, a)
                  else
                    '(s, a) ← format_go rest args; Ok (String c (String d s), a)
              | [] =>
                  '(s, a) ← format_go rest []; Ok (String c (String d s), a)
              end
        end
      else
        '(s, a) ← format_go tl args; Ok (String c s, a)
  end.

Definition format_rest (v : value) : result string :=
  match v with
  | VStr s => Ok (" " +:+ s)
  | _ => s ← format_surplus h v; Ok (" " +:+ s)
  end.

Fixpoint format_tail (rest : list value) : result string :=
  match rest with
  | [] => Ok EmptyString
  | v :: rest' => s ← format_rest v; t ← format_tail rest'; Ok (s +:+ t)
  end.

Definition format (tmpl : string) (args : list value) : result string :=
  match args with
  | [] => Ok tmpl
  | _ =>
      '(s, rest) ← format_go tmpl args;
      t ← format_tail rest;
      Ok (s +:+ t)
  end.

(** *** The ten rules *)

Definition imported_from (base : value) : string :=
  if ToBoolean base then " imported from " +:+ ToString base else "".

Definition ERR_INVALID_MODULE_SPECIFIER_message (request reason base : value)
    : result string :=
  Ok ("Invalid module " +:+ dq +:+ ToString request +:+ dq +:+ " " +:+
      ToString reason +:+ imported_from base).

Definition ERR_INVALID_PACKAGE_CONFIG_message (path base message : value)
    : result string :=
  Ok ("Invalid package config " +:+ ToString path +:+
      (if ToBoolean base then " while importing " +:+ ToString base else "") +:+
      (if ToBoolean message then ". " +:+ ToString message else "")).

Definition must_start_with (relError : bool) : string :=
  if relError then "; targets must start with " +:+ dq +:+ "./" +:+ dq else "".

Definition ERR_INVALID_PACKAGE_TARGET_message
    (pkgPath key target isImport base : value) : result string :=
  let relError :=
    match target with
    | VStr t =>
        negb (ToBoolean isImport) && Nat.ltb 0 (String.length t)
        && negb (startsWith "./" t)
    | _ => false
    end in
  if strict_eq_str key "." then
    _ ← assert (bool_decide (isImport = VBool false)) None;
    j ← JSON_stringify target;
    Ok ("Invalid " +:+ dq +:+ "exports" +:+ dq +:+ " main target " +:+
        ToString j +:+ " defined " +:+
        "in the package config " +:+ ToString pkgPath +:+ "package.json" +:+
        imported_from base +:+ must_start_with relError)
  else
    j ← JSON_stringify target;
    Ok ("Invalid " +:+ dq +:+
        (if ToBoolean isImport then "imports" else "exports") +:+
        dq +:+ " target " +:+ ToString j +:+
        " defined for '" +:+ ToString key +:+
        "' in the package config " +:+ ToString pkgPath +:+ "package.json" +:+
        imported_from base +:+ must_start_with relError).

Definition ERR_MODULE_NOT_FOUND_message (path base type : value) : result string :=
  Ok ("Cannot find " +:+ ToString type +:+ " '" +:+ ToString path +:+
      "' imported from " +:+ ToString base).

Definition ERR_PACKAGE_IMPORT_NOT_DEFINED_message
    (specifier packagePath base : value) : result string :=
  Ok ("Package import specifier " +:+ dq +:+ ToString specifier +:+ dq +:+
      " is not defined" +:+
      (if ToBoolean packagePath
       then " in package " +:+ ToString packagePath +:+ "package.json" else "") +:+
      " imported from " +:+ ToString base).

Definition ERR_PACKAGE_PATH_NOT_EXPORTED_message (pkgPath subpath base : value)
    : result string :=
  if strict_eq_str subpath "." then
    Ok ("No " +:+ dq +:+ "exports" +:+ dq +:+ " main defined in " +:+
        ToString pkgPath +:+ "package.json" +:+ imported_from base)
  else
    Ok ("Package subpath '" +:+ ToString subpath +:+
        "' is not defined by " +:+ dq +:+ "exports" +:+ dq +:+ " in " +:+
        ToString pkgPath +:+ "package.json" +:+ imported_from base).

(** The rendering of [value] that [ERR_INVALID_ARG_VALUE] embeds *)
Definition inspected_of (value_ : value) : result string :=
  inspected ← inspect h value_;
  Ok (if Nat.ltb 128 (String.length inspected)
      then slice0 128 inspected +:+ "..."
      else inspected).

Definition ERR_INVALID_ARG_VALUE_message (name value_ reason : value)
    : result string :=
  inspected ← inspected_of value_;
  is_property ← call_includes_dot name;
  let type := if (is_property : bool) then "property" else "argument" in
  Ok ("The " +:+ type +:+ " '" +:+ ToString name +:+ "' " +:+
      ToString reason +:+ ". Received " +:+ inspected).

Definition ERR_UNSUPPORTED_ESM_URL_SCHEME_message (url : value) : result string :=
  let message := "Only file and data URLs are supported by the default ESM loader" in
  message ←
    (if isWindows h then
       p ← get_protocol url;
       l ← get_length p;
       if bool_decide (l = VNum (Int 2%Z))
       then Ok (message +:+ ". On Windows, absolute paths must be valid file:// URLs")
       else Ok message
     else Ok message);
  p ← get_protocol url;
  Ok (message +:+ ". Received protocol '" +:+ ToString p +:+ "'").

Definition ERR_INVALID_MODULE_SPECIFIER_rule : MessageFunction :=
  {| fn_params := [required "request" TString; required "reason" TString;
                   optional "base" TOptString VUndefined];
     fn_body := λ vs,
       ERR_INVALID_MODULE_SPECIFIER_message (arg 0 vs) (arg 1 vs) (arg 2 vs) |}.

Definition ERR_INVALID_PACKAGE_CONFIG_rule : MessageFunction :=
  {| fn_params := [required "path" TString; required "base" TString;
                   required "message" TString];
     fn_body := λ vs,
       ERR_INVALID_PACKAGE_CONFIG_message (arg 0 vs) (arg 1 vs) (arg 2 vs) |}.

Definition ERR_INVALID_PACKAGE_TARGET_rule : MessageFunction :=
  {| fn_params := [required "pkgPath" TString; required "key" TString;
                   required "target" TUnknown;
                   optional "isImport" TBoolean (VBool false);
                   optional "base" TOptString VUndefined];
     fn_body := λ vs,
       ERR_INVALID_PACKAGE_TARGET_message
         (arg 0 vs) (arg 1 vs) (arg 2 vs) (arg 3 vs) (arg 4 vs) |}.

Definition ERR_MODULE_NOT_FOUND_rule : MessageFunction :=
  {| fn_params := [required "path" TString; required "base" TString;
                   optional "type" TString (VStr "package")];
     fn_body := λ vs,
       ERR_MODULE_NOT_FOUND_message (arg 0 vs) (arg 1 vs) (arg 2 vs) |}.

Definition ERR_PACKAGE_IMPORT_NOT_DEFINED_rule : MessageFunction :=
  {| fn_params := [required "specifier" TString; required "packagePath" TString;
                   required "base" TString];
     fn_body := λ vs,
       ERR_PACKAGE_IMPORT_NOT_DEFINED_message (arg 0 vs) (arg 1 vs) (arg 2 vs) |}.

Definition ERR_PACKAGE_PATH_NOT_EXPORTED_rule : MessageFunction :=
  {| fn_params := [required "pkgPath" TString; required "subpath" TString;
                   optional "base" TAny VUndefined];
     fn_body := λ vs,
       ERR_PACKAGE_PATH_NOT_EXPORTED_message (arg 0 vs) (arg 1 vs) (arg 2 vs) |}.

Definition ERR_UNSUPPORTED_DIR_IMPORT_template : string :=
  "Directory import '%s' is not supported " +:+
  "resolving ES modules imported from %s".

Definition ERR_UNKNOWN_FILE_EXTENSION_template : string :=
  "Unknown file extension " +:+ dq +:+ "%s" +:+ dq +:+ " for %s".

Definition ERR_INVALID_ARG_VALUE_rule : MessageFunction :=
  {| fn_params := [required "name" TString; required "value" TUnknown;
                   optional "reason" TString (VStr "is invalid")];
     fn_body := λ vs,
       ERR_INVALID_ARG_VALUE_message (arg 0 vs) (arg 1 vs) (arg 2 vs) |}.

Definition ERR_UNSUPPORTED_ESM_URL_SCHEME_rule : MessageFunction :=
  {| fn_params := [required "url" TUrl];
     fn_body := λ vs, ERR_UNSUPPORTED_ESM_URL_SCHEME_message (arg 0 vs) |}.

(* ===================================================================== *)
(** ** The registry                                                       *)
(* ===================================================================== *)

(** The constructor that [makeNodeErrorWithCode(Base, key)] returns: the
    closure [NodeError], held by what it closes over. *)
Record NodeErrorConstructor := {
  ctor_Base : ErrorConstructor;
  ctor_key : string;
}.

Definition makeNodeErrorWithCode (Base : ErrorConstructor) (key : string)
    : NodeErrorConstructor :=
  {| ctor_Base := Base; ctor_key := key |}.

(** [createError(sym, value, def)]: [messages.set(sym, value)], and the
    constructor. *)
Definition createError (sym : string) (value_ : MessageRule)
    (def : ErrorConstructor) (messages : gmap string MessageRule)
    : gmap string MessageRule * NodeErrorConstructor :=
  (<[sym := value_]> messages, makeNodeErrorWithCode def sym).

(** The statements [codes.P = createError(sym, value, def)] of the module,
    in source order. *)
Definition registrations : list (string * (string * MessageRule * ErrorConstructor)) :=
  [ ("ERR_INVALID_MODULE_SPECIFIER",
     ("ERR_INVALID_MODULE_SPECIFIER", RuleFn ERR_INVALID_MODULE_SPECIFIER_rule, TypeError_));
    ("ERR_INVALID_PACKAGE_CONFIG",
     ("ERR_INVALID_PACKAGE_CONFIG", RuleFn ERR_INVALID_PACKAGE_CONFIG_rule, Error_));
    ("ERR_INVALID_PACKAGE_TARGET",
     ("ERR_INVALID_PACKAGE_TARGET", RuleFn ERR_INVALID_PACKAGE_TARGET_rule, Error_));
    ("ERR_MODULE_NOT_FOUND",
     ("ERR_MODULE_NOT_FOUND", RuleFn ERR_MODULE_NOT_FOUND_rule, Error_));
    ("ERR_PACKAGE_IMPORT_NOT_DEFINED",
     ("ERR_PACKAGE_IMPORT_NOT_DEFINED", RuleFn ERR_PACKAGE_IMPORT_NOT_DEFINED_rule, TypeError_));
    ("ERR_PACKAGE_PATH_NOT_EXPORTED",
     ("ERR_PACKAGE_PATH_NOT_EXPORTED", RuleFn ERR_PACKAGE_PATH_NOT_EXPORTED_rule, Error_));
    ("ERR_UNSUPPORTED_DIR_IMPORT",
     ("ERR_UNSUPPORTED_DIR_IMPORT", RuleStr ERR_UNSUPPORTED_DIR_IMPORT_template, Error_));
    ("ERR_UNKNOWN_FILE_EXTENSION",
     ("ERR_UNKNOWN_FILE_EXTENSION", RuleStr ERR_UNKNOWN_FILE_EXTENSION_template, TypeError_));
    ("ERR_INVALID_ARG_VALUE",
     ("ERR_INVALID_ARG_VALUE", RuleFn ERR_INVALID_ARG_VALUE_rule, TypeError_));
    ("ERR_UNSUPPORTED_ESM_URL_SCHEME",
     ("ERR_UNSUPPORTED_ESM_URL_SCHEME", RuleFn ERR_UNSUPPORTED_ESM_URL_SCHEME_rule, Error_)) ].

(** The module state after one such statement *)
Definition register
    (st : gmap string MessageRule * gmap string NodeErrorConstructor)
    (r : string * (string * MessageRule * ErrorConstructor))
    : gmap string MessageRule * gmap string NodeErrorConstructor :=
  let '(P, (sym, value_, def)) := r in
  let '(messages', ctor) := createError sym value_ def st.1 in
  (messages', <[P := ctor]> st.2).

(** [messages] and [codes] once the module has been evaluated *)
Definition module_init
    : gmap string MessageRule * gmap string NodeErrorConstructor :=
  foldl register (∅, ∅) registrations.

Definition messages : gmap string MessageRule := module_init.1.
Definition codes : gmap string NodeErrorConstructor := module_init.2.

(* ===================================================================== *)
(** ** [getMessage]                                                       *)
(* ===================================================================== *)

Definition count_mismatch (key : string) (given expected : nat) : string :=
  "Code: " +:+ key +:+ "; The provided arguments length (" +:+ pretty given +:+
  ") does not " +:+ "match the required ones (" +:+ pretty expected +:+ ").".

(** [getMessage(key, args, self)], over a registry [msgs]. With no rule
    under [key], [message] is [undefined]: not a function, and the read of
    [message.match] throws. *)
Definition getMessage_in (msgs : gmap string MessageRule)
    (key : string) (args : list value) (self : error_obj) : result string :=
  match msgs !! key with
  | Some (RuleFn message) =>
      _ ← assert (Nat.leb (fn_length message) (length args))
            (Some (count_mismatch key (length args) (fn_length message)));
      apply_fn message args
  | Some (RuleStr message) =>
      let expectedLength := count_placeholders message in
      _ ← assert (Nat.eqb expectedLength (length args))
            (Some (count_mismatch key (length args) expectedLength));
      if Nat.eqb (length args) 0 then Ok message
      else format message args
  | None => Throw (TypeError (ReadOfNullish "match"))
  end.

Definition getMessage : string → list value → error_obj → result string :=
  getMessage_in messages.

(* ===================================================================== *)
(** ** Trace capture and [NodeError]                                      *)
(* ===================================================================== *)

(** [captureLargerStackTrace(error)]. Like [addCodeToName] it is passed
    through [hideStackFrames], which renames the function it is given and
    returns it: what the function does is unchanged. *)
Definition captureLargerStackTrace (error : error_obj) : M error_obj :=
  stackTraceLimitIsWritable ← isErrorStackTraceLimitWritable;
  (if (stackTraceLimitIsWritable : bool) then
     l ← read_limit; write_user l;; write_limit (VNum Infinity)
   else mret tt);;
  error ← captureStackTrace error;
  (if (stackTraceLimitIsWritable : bool) then
     u ← read_user; write_limit u
   else mret tt);;
  mret error.

(** [addCodeToName(error, name, code)] *)
Definition addCodeToName (error : error_obj) (name code : string) : M error_obj :=
  error ← captureLargerStackTrace error;
  error ← lift (assign_name error (VStr (name +:+ " [" +:+ code +:+ "]")));
  let error := read_stack error in
  if bool_decide (name = "SystemError") then
    n ← lift (define_own (err_extensible error) (err_name error)
                {| p_value := VStr name; enumerable := false;
                   writable := true; configurable := true |});
    mret (set_err_name error n)
  else
    lift (assign_name error (VStr "")).

(** [NodeError(...args)] of [makeNodeErrorWithCode(Base, key)] *)
Definition NodeError (Base : ErrorConstructor) (key : string)
    (args : list value) : M error_obj :=
  limit ← read_limit;
  w ← isErrorStackTraceLimitWritable;
  (if (w : bool) then write_limit (VNum (Int 0%Z)) else mret tt);;
  error ← new_ Base;
  w ← isErrorStackTraceLimitWritable;
  (if (w : bool) then write_limit limit else mret tt);;
  message ← lift (getMessage key args error);
  m ← lift (define_own (err_extensible error) (err_message error)
              {| p_value := VStr message; enumerable := false;
                 writable := true; configurable := true |});
  let error := set_err_message error m in
  t ← lift (match err_toString error with
            | None =>
                if err_extensible error then Ok (Some key)
                else Throw (TypeError CannotDefine)
            | Some _ => Ok (Some key)
            end);
  let error := set_err_toString error t in
  error ← addCodeToName error (class_name Base) key;
  lift (assign_code error (VStr key)).

(** [new C(...args)] for a constructor [C] out of [codes] *)
Definition construct (C : NodeErrorConstructor) (args : list value) : M error_obj :=
  NodeError (ctor_Base C) (ctor_key C) args.

End WithHost.

(* ===================================================================== *)
(** ** Vocabulary of the statements                                       *)
(* ===================================================================== *)

(** The number of arguments a rule requires: [f.length] of a function
    rule, the placeholder count of a template. *)
Definition required_count (r : MessageRule) : nat :=
  match r with
  | RuleFn f => fn_length f
  | RuleStr t => count_placeholders t
  end.

(** The declared types of the parameters of a rule; the arguments of a
    template are untyped. *)
Definition declared_types (r : MessageRule) : list ptype :=
  match r with
  | RuleFn f => p_type <$> fn_params f
  | RuleStr t => replicate (count_placeholders t) TAny
  end.

(** Each argument has the type its parameter declares. *)
Definition well_typed (r : MessageRule) (args : list value) : Prop :=
  Forall2 (λ t v, has_type t v = true) (take (length args) (declared_types r)) args.

(** [JSON.stringify] accepts the value. *)
Definition stringifiable (v : value) : Prop := ∃ j, JSON_stringify v = Ok j.

(** [util.inspect] renders the value; [util.format] renders it under
    [%s]. *)
Definition inspectable (h : Host) (v : value) : Prop := ∃ s, inspect h v = Ok s.

Definition formattable (h : Host) (v : value) : Prop :=
  ∃ s, format_arg h "s" v = Ok s.

(** The renderings that the rule of [code] applies to its arguments
    return: [JSON.stringify] of the [target] of
    [ERR_INVALID_PACKAGE_TARGET], [util.inspect] of the [value] of
    [ERR_INVALID_ARG_VALUE], [util.format] of the arguments of a
    template. *)
Definition renderable (h : Host) (code : string) (r : MessageRule)
    (args : list value) : Prop :=
  (code = "ERR_INVALID_PACKAGE_TARGET" →
   ∀ target, args !! 2 = Some target → stringifiable target)
  ∧ (code = "ERR_INVALID_ARG_VALUE" →
     ∀ v, args !! 1 = Some v → inspectable h v)
  ∧ (∀ t, r = RuleStr t → Forall (formattable h) args).

(** The [reason] that [ERR_INVALID_ARG_VALUE] writes, from the arguments
    after [name] and [value]. *)
Definition reason_of (rest : list value) : value :=
  match rest with
  | [] | VUndefined :: _ => VStr "is invalid"
  | reason :: _ => reason
  end.

(** What [ERR_INVALID_ARG_VALUE] embeds of a rendering. *)
Definition embedded (rendering : string) : string :=
  if Nat.ltb 128 (String.length rendering)
  then slice0 128 rendering +:+ "..."
  else rendering.

(** [Error.stackTraceLimit] is a number held by a data property: the
    states in which a trace is recorded. *)
Definition limit_is_number (g : Global) : Prop :=
  ∃ n w, stackTraceLimit g = Some (Data (VNum n) w).

(** The defaults of the parameters after the required ones. *)
Definition declared_defaults (ps : list param) : list value :=
  omap p_default (drop (leading_required ps) ps).

(** What [Error.stackTraceLimit] reads once [Infinity] has been assigned
    to it, and the limit under which [captureLargerStackTrace] records. *)
Definition raised_limit (g : Global) : value :=
  match stackTraceLimit g with
  | Some (Accessor _ false _) => VUndefined
  | _ => VNum Infinity
  end.

Definition trace_limit (g : Global) : value :=
  if limit_writable g then raised_limit g else limit_of g.

(** [e.name] can be assigned and redefined: it is absent, or writable and
    configurable. *)
Definition name_settable (e : error_obj) : Prop :=
  match err_name e with
  | None => True
  | Some p => writable p = true ∧ configurable p = true
  end.

Definition message_text (e : error_obj) : string :=
  match get_message e with VUndefined => "" | v => ToString v end.

(** The [name] property that [addCodeToName] leaves on [e]. *)
Definition final_name (e : error_obj) (name : string) : property :=
  if bool_decide (name = "SystemError")
  then {| p_value := VStr name; enumerable := false;
          writable := true; configurable := true |}
  else {| p_value := VStr "";
          enumerable := match err_name e with Some p => enumerable p | None => true end;
          writable := true;
          configurable := match err_name e with Some p => configurable p | None => true end |}.

(** [e] after [addCodeToName(e, name, code)] has recorded under [limit]. *)
Definition renamed (e : error_obj) (name code : string) (limit : value) : error_obj :=
  set_err_name
    (set_err_stack e
       (Formatted limit (header_text (name +:+ " [" +:+ code +:+ "]") (message_text e))))
    (Some (final_name e name)).

(** The error that [NodeError] returns for a resolved [message]. *)
Definition finished (Base : ErrorConstructor) (key message : string)
    (limit : value) : error_obj :=
  {| err_class := class_name Base; err_extensible := true;
     err_name := Some (final_name (fresh Base limit) (class_name Base));
     err_message := Some {| p_value := VStr message; enumerable := false;
                            writable := true; configurable := true |};
     err_toString := Some key;
     err_code := Some {| p_value := VStr key; enumerable := true;
                         writable := true; configurable := true |};
     err_stack := Formatted limit
       (header_text (class_name Base +:+ " [" +:+ key +:+ "]") message) |}.

(** The state that [NodeError] leaves when message resolution throws:
    the limit has been set to [0] and back around [new Base()]. *)
Definition restored (g : Global) : Global :=
  if limit_writable g then
    {| stackTraceLimit :=
         Some (match stackTraceLimit g with
               | Some (Accessor _ has_get has_set) =>
                   Accessor (limit_of g) has_get has_set
               | _ => Data (limit_of g) true
               end);
       Error_extensible := Error_extensible g;
       userStackTraceLimit := userStackTraceLimit g |}
  else g.

(** The state that [NodeError] leaves when it returns: the limit has also
    been raised and restored around the capture, through
    [userStackTraceLimit]. *)
Definition settled (g : Global) : Global :=
  if limit_writable g then
    {| stackTraceLimit := stackTraceLimit (restored g);
       Error_extensible := Error_extensible g;
       userStackTraceLimit := limit_of g |}
  else g.

(** [Error.stackTraceLimit] can be read back: it is not an accessor
    without a getter. *)
Definition limit_readable (g : Global) : Prop :=
  ∀ cell has_set, stackTraceLimit g ≠ Some (Accessor cell false has_set).

(** The host [h] on another platform. *)
Definition with_platform (windows : bool) (h : Host) : Host :=
  {| isWindows := windows; inspect := inspect h;
     format_spec := format_spec h; format_surplus := format_surplus h |}.

(** *** Concrete hosts, states and objects for the examples *)

(** A host off Windows; its [inspect] quotes strings and marks BigInts. *)
Definition sample_inspect (v : value) : string :=
  match v with
  | VStr s => "'" +:+ s +:+ "'"
  | VBigInt z => pretty z +:+ "n"
  | _ => ToString v
  end.

Definition sample_host : Host :=
  {| isWindows := false; inspect := λ v, Ok (sample_inspect v);
     format_spec := λ _ v, Ok (sample_inspect v);
     format_surplus := λ v, Ok (sample_inspect v) |}.

(** An object that refers to itself, [const o = {}; o.self = o]:
    [JSON.stringify] refuses the cycle. *)
Definition cyclic_object : object :=
  {| obj_string := "[object Object]";
     obj_json := Throw (TypeError NotSerializable);
     obj_protocol := Ok None; obj_length := Ok None;
     obj_includes_dot := Throw (TypeError (NotAFunction "includes")) |}.

(** Node's default: a writable data property holding [10]. *)
Definition default_global : Global :=
  {| stackTraceLimit := Some (Data (VNum (Int 10%Z)) true);
     Error_extensible := true; userStackTraceLimit := VUndefined |}.

(** [Object.freeze(Error)] after the limit was set to [10]. *)
Definition frozen_global : Global :=
  {| stackTraceLimit := Some (Data (VNum (Int 10%Z)) false);
     Error_extensible := false; userStackTraceLimit := VUndefined |}.

(** [Object.freeze(new Error())] *)
Definition frozen_error : error_obj :=
  {| err_class := "Error"; err_extensible := false;
     err_name := None; err_message := None; err_toString := None;
     err_code := None; err_stack := Recorded (VNum (Int 10%Z)) |}.

(** The error of the specification's example,
    [new codes.ERR_UNKNOWN_FILE_EXTENSION(".xyz", "/a/b.xyz")] under the
    default limit, and the state the call leaves. *)
Definition sample_args : list value := [VStr ".xyz"; VStr "/a/b.xyz"].

Definition sample_message : string :=
  "Unknown file extension " +:+ dq +:+ ".xyz" +:+ dq +:+ " for /a/b.xyz".

Definition sample_error : error_obj :=
  finished TypeError_ "ERR_UNKNOWN_FILE_EXTENSION" sample_message (VNum Infinity).

Definition global_after : Global :=
  {| stackTraceLimit := Some (Data (VNum (Int 10%Z)) true);
     Error_extensible := true; userStackTraceLimit := VNum (Int 10%Z) |}.

(** A string of [n] copies of ["a"] *)
Fixpoint a_string (n : nat) : string :=
  match n with
  | O => EmptyString
  | S n' => String "a"%char (a_string n')
  end.

(* ===================================================================== *)
(** ** Lemmas on the registry                                             *)
(* ===================================================================== *)

Section Registry.

Variable h : Host.

Lemma messages_unfold :
  messages h =
  <["ERR_UNSUPPORTED_ESM_URL_SCHEME" := RuleFn (ERR_UNSUPPORTED_ESM_URL_SCHEME_rule h)]>
  (<["ERR_INVALID_ARG_VALUE" := RuleFn (ERR_INVALID_ARG_VALUE_rule h)]>
  (<["ERR_UNKNOWN_FILE_EXTENSION" := RuleStr ERR_UNKNOWN_FILE_EXTENSION_template]>
  (<["ERR_UNSUPPORTED_DIR_IMPORT" := RuleStr ERR_UNSUPPORTED_DIR_IMPORT_template]>
  (<["ERR_PACKAGE_PATH_NOT_EXPORTED" := RuleFn ERR_PACKAGE_PATH_NOT_EXPORTED_rule]>
  (<["ERR_PACKAGE_IMPORT_NOT_DEFINED" := RuleFn ERR_PACKAGE_IMPORT_NOT_DEFINED_rule]>
  (<["ERR_MODULE_NOT_FOUND" := RuleFn ERR_MODULE_NOT_FOUND_rule]>
  (<["ERR_INVALID_PACKAGE_TARGET" := RuleFn ERR_INVALID_PACKAGE_TARGET_rule]>
  (<["ERR_INVALID_PACKAGE_CONFIG" := RuleFn ERR_INVALID_PACKAGE_CONFIG_rule]>
  (<["ERR_INVALID_MODULE_SPECIFIER" := RuleFn ERR_INVALID_MODULE_SPECIFIER_rule]>
   ∅))))))))).
Proof. reflexivity. Qed.

Lemma codes_unfold :
  codes h =
  <["ERR_UNSUPPORTED_ESM_URL_SCHEME" := makeNodeErrorWithCode Error_ "ERR_UNSUPPORTED_ESM_URL_SCHEME"]>
  (<["ERR_INVALID_ARG_VALUE" := makeNodeErrorWithCode TypeError_ "ERR_INVALID_ARG_VALUE"]>
  (<["ERR_UNKNOWN_FILE_EXTENSION" := makeNodeErrorWithCode TypeError_ "ERR_UNKNOWN_FILE_EXTENSION"]>
  (<["ERR_UNSUPPORTED_DIR_IMPORT" := makeNodeErrorWithCode Error_ "ERR_UNSUPPORTED_DIR_IMPORT"]>
  (<["ERR_PACKAGE_PATH_NOT_EXPORTED" := makeNodeErrorWithCode Error_ "ERR_PACKAGE_PATH_NOT_EXPORTED"]>
  (<["ERR_PACKAGE_IMPORT_NOT_DEFINED" := makeNodeErrorWithCode TypeError_ "ERR_PACKAGE_IMPORT_NOT_DEFINED"]>
  (<["ERR_MODULE_NOT_FOUND" := makeNodeErrorWithCode Error_ "ERR_MODULE_NOT_FOUND"]>
  (<["ERR_INVALID_PACKAGE_TARGET" := makeNodeErrorWithCode Error_ "ERR_INVALID_PACKAGE_TARGET"]>
  (<["ERR_INVALID_PACKAGE_CONFIG" := makeNodeErrorWithCode Error_ "ERR_INVALID_PACKAGE_CONFIG"]>
  (<["ERR_INVALID_MODULE_SPECIFIER" := makeNodeErrorWithCode TypeError_ "ERR_INVALID_MODULE_SPECIFIER"]>
   ∅))))))))).
Proof. reflexivity. Qed.

Ltac in_list :=
  first [ apply list_elem_of_here | apply list_elem_of_further; in_list ].

(** A rule found in [messages] is one of the ten, under its own code. *)
Lemma messages_inv code r :
  messages h !! code = Some r →
  ∃ P def, (P, (code, r, def)) ∈ registrations h.
Proof.
  rewrite messages_unfold, !lookup_insert_Some, lookup_empty.
  unfold registrations.
  intros H; repeat destruct H as [[<- <-] | [_ H]]; try discriminate H;
    eexists _, _; in_list.
Qed.

(** A constructor found in [codes] is one of the ten: it closes over the
    code it is stored under and over the base class registered for it. *)
Lemma codes_inv code C :
  codes h !! code = Some C →
  ∃ r, (code, (code, r, ctor_Base C)) ∈ registrations h ∧ ctor_key C = code.
Proof.
  rewrite codes_unfold, !lookup_insert_Some, lookup_empty.
  unfold registrations.
  intros H; repeat destruct H as [[<- <-] | [_ H]]; try discriminate H;
    eexists; (split; [| reflexivity]); cbn; in_list.
Qed.

(** Both at once, for a code with a rule and a constructor. *)
Lemma registry_inv code r C :
  messages h !! code = Some r → codes h !! code = Some C →
  (code, (code, r, ctor_Base C)) ∈ registrations h ∧ ctor_key C = code.
Proof.
  rewrite messages_unfold, !lookup_insert_Some, lookup_empty.
  unfold registrations.
  intros H; repeat destruct H as [[<- <-] | [_ H]]; try discriminate H;
    intros HC; vm_compute in HC; injection HC as <-;
    (split; [cbn; in_list | reflexivity]).
Qed.

End Registry.

(** Case analysis on a membership in [registrations]. *)
Ltac registry_cases H :=
  unfold registrations in H;
  repeat (apply elem_of_cons in H as [H | H]);
  [ injection H as ? ? ? ?; subst .. | apply elem_of_nil in H; destruct H ];
  try match goal with
      | E : RuleFn _ = RuleStr _ |- _ => discriminate E
      | E : RuleStr _ = RuleFn _ |- _ => discriminate E
      end.

(* ===================================================================== *)
(** ** Lemmas on the runs                                                 *)
(* ===================================================================== *)

Ltac run :=
  unfold mbind, mret, M_bind, M_ret, lift, read_limit, read_user, write_user,
    isErrorStackTraceLimitWritable, new_; cbn.

(** [getMessage] does not look at [self]: the rules are arrow functions. *)
Lemma getMessage_self h key args e e' :
  getMessage h key args e = getMessage h key args e'.
Proof. reflexivity. Qed.

(** When the capture itself succeeds, [captureLargerStackTrace] returns,
    the trace is recorded under [trace_limit], and the limit reads as
    before. *)
Lemma captureLargerStackTrace_run e g :
  err_extensible e = true →
  ∃ g', captureLargerStackTrace e g
        = (Ok (set_err_stack e (Recorded (trace_limit g))), g')
      ∧ limit_of g' = limit_of g ∧ limit_writable g' = limit_writable g.
Proof.
  intros Hext.
  unfold captureLargerStackTrace, captureStackTrace, trace_limit, raised_limit.
  destruct g as [[[v [] | cell [] []] |] [] u]; run; rewrite Hext; cbn; eauto.
Qed.

Lemma addCodeToName_run e name code g :
  err_extensible e = true → name_settable e →
  ∃ g', addCodeToName e name code g
        = (Ok (renamed e name code (trace_limit g)), g')
      ∧ limit_of g' = limit_of g ∧ limit_writable g' = limit_writable g.
Proof.
  intros Hext Hname. unfold addCodeToName.
  destruct (captureLargerStackTrace_run e g Hext) as (g' & Hrun & Hl & Hw).
  exists g'. split; [| done].
  unfold mbind, M_bind at 1. rewrite Hrun.
  unfold renamed, final_name, name_settable in *.
  destruct e as [cls ext [[nv ne nw nc]|] m t c s]; cbn in *; subst.
  - destruct Hname as [-> ->]. run.
    case_bool_decide; run; done.
  - run. case_bool_decide; run; done.
Qed.

(** [NodeError] throws exactly what [getMessage] throws, and otherwise
    returns the finished error; either way the limit reads as before. *)
Lemma NodeError_run h Base key args g :
  ∃ g1 g2,
    NodeError h Base key args g =
    match getMessage h key args (fresh Base VUndefined) with
    | Ok msg => (Ok (finished Base key msg (trace_limit g)), g2)
    | Throw x => (Throw x, g1)
    end
    ∧ limit_of g1 = limit_of g ∧ limit_of g2 = limit_of g
    ∧ limit_writable g2 = limit_writable g.
Proof.
  unfold NodeError.
  destruct g as [[[v [] | cell [] []] |] [] u].
  all: unfold mbind, M_bind, read_limit, isErrorStackTraceLimitWritable, new_, lift;
    cbn -[getMessage addCodeToName].
  all: match goal with
       | |- context [getMessage ?h' ?k ?a ?e] =>
           change (getMessage h' k a e)
             with (getMessage h' k a (fresh Base VUndefined))
       end.
  all: destruct (getMessage h key args (fresh Base VUndefined)) as [msg | x];
    [| match goal with |- ∃ g1 g2, (_, ?s) = _ ∧ _ => by exists s, s end].
  all: match goal with
       | |- context [addCodeToName ?e ?n ?k ?g] =>
           destruct (addCodeToName_run e n k g) as (g' & -> & Hl & Hw);
           [reflexivity | exact I |]
       end.
  all: exists g', g'; cbn in Hl, Hw |- *; split; [reflexivity | done].
Qed.

(** The successful half, in the form the claims use. *)
Lemma NodeError_Ok h Base key args g msg :
  getMessage h key args (fresh Base VUndefined) = Ok msg →
  ∃ g', NodeError h Base key args g
        = (Ok (finished Base key msg (trace_limit g)), g')
      ∧ limit_of g' = limit_of g.
Proof.
  intros Hm. destruct (NodeError_run h Base key args g) as (g1 & g2 & Hr & _ & H2 & _).
  rewrite Hm in Hr. eauto.
Qed.

Lemma NodeError_Ok_inv h Base key args g e g' :
  NodeError h Base key args g = (Ok e, g') →
  ∃ msg, getMessage h key args (fresh Base VUndefined) = Ok msg
       ∧ e = finished Base key msg (trace_limit g).
Proof.
  intros Hrun. destruct (NodeError_run h Base key args g) as (g1 & g2 & Hr & _).
  rewrite Hrun in Hr.
  destruct (getMessage h key args (fresh Base VUndefined)) as [msg | x];
    [| discriminate Hr].
  exists msg. split; [reflexivity | congruence].
Qed.

(* ===================================================================== *)
(** ** Lemmas on [getMessage]                                             *)
(* ===================================================================== *)

Lemma append_String (c : ascii) (s t : string) :
  String c s +:+ t = String c (s +:+ t).
Proof. reflexivity. Qed.

Lemma append_nil_r (s : string) : s +:+ "" = s.
Proof.
  induction s as [| c s IH]; [reflexivity | by rewrite append_String, IH].
Qed.

Lemma getMessage_fn h key f args self :
  messages h !! key = Some (RuleFn f) → fn_length f ≤ length args →
  getMessage h key args self = apply_fn f args.
Proof.
  intros Hr Hle. unfold getMessage, getMessage_in. rewrite Hr.
  destruct (Nat.leb_spec (fn_length f) (length args)) as [_ | Hlt];
    [reflexivity | lia].
Qed.

Lemma getMessage_fn_few h key f args self :
  messages h !! key = Some (RuleFn f) → length args < fn_length f →
  getMessage h key args self
  = Throw (AssertionError (Some (count_mismatch key (length args) (fn_length f)))).
Proof.
  intros Hr Hlt. unfold getMessage, getMessage_in. rewrite Hr.
  destruct (Nat.leb_spec (fn_length f) (length args)) as [Hle | _];
    [lia | reflexivity].
Qed.

Lemma getMessage_str h key t args self :
  messages h !! key = Some (RuleStr t) → length args = count_placeholders t →
  getMessage h key args self
  = (if Nat.eqb (length args) 0 then Ok t else format h t args).
Proof.
  intros Hr Hlen. unfold getMessage, getMessage_in. rewrite Hr.
  rewrite Hlen, Nat.eqb_refl. reflexivity.
Qed.

Lemma getMessage_str_mismatch h key t args self :
  messages h !! key = Some (RuleStr t) → length args ≠ count_placeholders t →
  getMessage h key args self
  = Throw (AssertionError
             (Some (count_mismatch key (length args) (count_placeholders t)))).
Proof.
  intros Hr Hne. unfold getMessage, getMessage_in. rewrite Hr.
  destruct (Nat.eqb_spec (count_placeholders t) (length args)) as [Heq | _];
    [congruence | reflexivity].
Qed.

(** Every registered rule requires at least one argument. *)
Lemma required_count_pos h code r :
  messages h !! code = Some r → 1 ≤ required_count r.
Proof.
  intros Hr. destruct (messages_inv h code r Hr) as (P & def & Hin).
  registry_cases Hin; lazy; lia.
Qed.

(** What [util.format] makes of a template with two [%s] in a row of
    text, when both arguments render. *)
Lemma format_two h tmpl v1 v2 s1 s2 pre mid :
  format_go h tmpl [v1; v2]
  = (a ← format_arg h "s" v1; b ← format_arg h "s" v2;
     Ok (pre +:+ a +:+ mid +:+ b +:+ "", [])) →
  format_arg h "s" v1 = Ok s1 → format_arg h "s" v2 = Ok s2 →
  format h tmpl [v1; v2] = Ok (pre +:+ s1 +:+ mid +:+ s2).
Proof.
  intros Hgo H1 H2. unfold format. rewrite Hgo, H1, H2. cbn.
  by rewrite !append_nil_r.
Qed.

(** [util.format] copies text without [%], and replaces a [%s]. *)
Lemma format_go_literal h lit tl args :
  Forall (λ c, c ≠ "%"%char) (list_ascii_of_string lit) →
  format_go h (lit +:+ tl) args
  = ('(s, a) ← format_go h tl args; Ok (lit +:+ s, a)).
Proof.
  induction lit as [| c lit IH]; intros HF; cbn [list_ascii_of_string] in HF.
  - change ("" +:+ tl) with tl.
    destruct (format_go h tl args) as [[s a] |]; reflexivity.
  - apply Forall_cons in HF as [Hc HF]. rewrite append_String.
    cbn [format_go]. rewrite bool_decide_eq_false_2 by done.
    rewrite IH by done.
    destruct (format_go h tl args) as [[s a] |]; reflexivity.
Qed.

Lemma format_go_s h rest v args :
  format_go h (String "%" (String "s" rest)) (v :: args)
  = (s1 ← format_arg h "s" v;
     '(s, a) ← format_go h rest args; Ok (s1 +:+ s, a)).
Proof. reflexivity. Qed.

Ltac no_percent :=
  compute; repeat (constructor; [discriminate |]); constructor.

Lemma format_go_two h pre mid v1 v2 :
  Forall (λ c, c ≠ "%"%char) (list_ascii_of_string pre) →
  Forall (λ c, c ≠ "%"%char) (list_ascii_of_string mid) →
  format_go h (pre +:+ String "%" (String "s" (mid +:+ String "%" (String "s" ""))))
    [v1; v2]
  = (a ← format_arg h "s" v1; b ← format_arg h "s" v2;
     Ok (pre +:+ a +:+ mid +:+ b +:+ "", [])).
Proof.
  intros Hpre Hmid.
  rewrite (format_go_literal h pre) by done. rewrite format_go_s.
  destruct (format_arg h "s" v1) as [a |]; [| reflexivity].
  cbn [mbind result_bind rbind].
  rewrite (format_go_literal h mid) by done. rewrite format_go_s.
  destruct (format_arg h "s" v2) as [b |]; reflexivity.
Qed.

Lemma format_go_DIR_IMPORT h v1 v2 :
  format_go h ERR_UNSUPPORTED_DIR_IMPORT_template [v1; v2]
  = (a ← format_arg h "s" v1; b ← format_arg h "s" v2;
     Ok ("Directory import '" +:+ a +:+
         "' is not supported resolving ES modules imported from " +:+
         b +:+ "", [])).
Proof.
  apply (format_go_two h "Directory import '"
           "' is not supported resolving ES modules imported from ");
    no_percent.
Qed.

Lemma format_go_FILE_EXTENSION h v1 v2 :
  format_go h ERR_UNKNOWN_FILE_EXTENSION_template [v1; v2]
  = (a ← format_arg h "s" v1; b ← format_arg h "s" v2;
     Ok (("Unknown file extension " +:+ dq) +:+ a +:+
         (dq +:+ " for ") +:+ b +:+ "", [])).
Proof.
  apply (format_go_two h ("Unknown file extension " +:+ dq) (dq +:+ " for "));
    no_percent.
Qed.

(** On arguments of the declared types, in the required number, that the
    rule can render, every registered rule yields a message. *)
Lemma getMessage_typed h code r C args self :
  messages h !! code = Some r → codes h !! code = Some C →
  length args = required_count r →
  well_typed r args →
  renderable h code r args →
  ∃ msg, getMessage h code args self = Ok msg.
Proof.
  intros Hr HC Hlen Hty (Hjson & Hinsp & Hfmt).
  destruct (registry_inv h code r C Hr HC) as [Hin _].
  destruct r as [f | t].
  2: { rewrite (getMessage_str h code t args self Hr Hlen).
       specialize (Hfmt t eq_refl). clear Hr HC Hjson Hinsp Hty.
       registry_cases Hin.
       all: change (length args = 2) in Hlen.
       all: do 3 (destruct args as [| ? args]; try discriminate Hlen).
       all: apply Forall_cons in Hfmt as [[s1 Hf1] Hfmt].
       all: apply Forall_cons in Hfmt as [[s2 Hf2] _].
       all: cbn [length Nat.eqb].
       - rewrite (format_two h _ _ _ s1 s2 _ _ (format_go_DIR_IMPORT h _ _) Hf1 Hf2).
         eauto.
       - rewrite (format_two h _ _ _ s1 s2 _ _ (format_go_FILE_EXTENSION h _ _) Hf1 Hf2).
         eauto. }
  rewrite (getMessage_fn h code f args self Hr) by (cbn in Hlen; lia).
  clear Hr HC Hfmt.
  registry_cases Hin.
  all: cbn in Hlen.
  all: repeat (destruct args as [| ? args]; try discriminate Hlen).
  all: unfold well_typed in Hty; cbn in Hty.
  all: repeat (apply Forall2_cons_1 in Hty as [? Hty]).
  all: repeat match goal with
       | H : has_type TString ?v = true |- _ =>
           destruct v; try discriminate H; clear H
       | H : has_type TUrl ?v = true |- _ =>
           destruct v; try discriminate H; clear H
       end.
  all: try (cbn; eexists; reflexivity).
  - destruct (Hjson eq_refl v1 eq_refl) as [j Hj].
    unfold apply_fn; cbn.
    unfold ERR_INVALID_PACKAGE_TARGET_message, strict_eq_str.
    case_bool_decide; cbn; rewrite Hj; cbn; eauto.
  - unfold apply_fn; cbn.
    unfold ERR_PACKAGE_PATH_NOT_EXPORTED_message, strict_eq_str.
    case_bool_decide; eauto.
  - destruct (Hinsp eq_refl v0 eq_refl) as [i Hi].
    unfold apply_fn; cbn.
    unfold ERR_INVALID_ARG_VALUE_message, inspected_of. rewrite Hi. cbn. eauto.
  - unfold apply_fn; cbn. unfold ERR_UNSUPPORTED_ESM_URL_SCHEME_message.
    destruct (isWindows h); cbn; [case_bool_decide |]; eauto.
Qed.

(* ===================================================================== *)
(** ** C1: construction with the required arguments                       *)
(* ===================================================================== *)

(** C1, as stated, fails: with exactly the required number of arguments a
    constructor can still throw. [ERR_UNSUPPORTED_ESM_URL_SCHEME] has one
    required parameter; called with [undefined] the rule reads
    [url.protocol] and a [TypeError] leaves the constructor. The same
    happens to [ERR_INVALID_PACKAGE_TARGET] with a [target], whose
    declared type is [unknown], that [JSON.stringify] refuses: a BigInt,
    or an object with a cycle. *)
Lemma C1_counterexample :
  codes sample_host !! "ERR_UNSUPPORTED_ESM_URL_SCHEME"
    = Some (makeNodeErrorWithCode Error_ "ERR_UNSUPPORTED_ESM_URL_SCHEME")
  ∧ (required_count <$> messages sample_host !! "ERR_UNSUPPORTED_ESM_URL_SCHEME")
    = Some (length [VUndefined])
  ∧ construct sample_host
      (makeNodeErrorWithCode Error_ "ERR_UNSUPPORTED_ESM_URL_SCHEME")
      [VUndefined] default_global
    = (Throw (TypeError (ReadOfNullish "protocol")), default_global)
  ∧ codes sample_host !! "ERR_INVALID_PACKAGE_TARGET"
    = Some (makeNodeErrorWithCode Error_ "ERR_INVALID_PACKAGE_TARGET")
  ∧ (required_count <$> messages sample_host !! "ERR_INVALID_PACKAGE_TARGET")
    = Some (length [VStr "/pkg/"; VStr "./a"; VBigInt 10%Z])
  ∧ construct sample_host
      (makeNodeErrorWithCode Error_ "ERR_INVALID_PACKAGE_TARGET")
      [VStr "/pkg/"; VStr "./a"; VBigInt 10%Z] default_global
    = (Throw (TypeError NotSerializable), default_global)
  ∧ construct sample_host
      (makeNodeErrorWithCode Error_ "ERR_INVALID_PACKAGE_TARGET")
      [VStr "/pkg/"; VStr "./a"; VObject cyclic_object] default_global
    = (Throw (TypeError NotSerializable), default_global).
Proof. repeat apply conj; reflexivity. Qed.

(** C1 (amended): for every registered code, the constructor returned for
    it, called with exactly the number of arguments its rule requires,
    each of the type its parameter declares, does not throw, and the
    [code] of the error it returns is that code, provided the renderings
    that the rule applies to the arguments return: [JSON.stringify] of
    the [target] of [ERR_INVALID_PACKAGE_TARGET], [util.inspect] of the
    [value] of [ERR_INVALID_ARG_VALUE], [util.format] of the arguments of
    a template rule. This holds in every state of
    [Error.stackTraceLimit]. *)
Theorem C1_constructor_returns_coded_error h code r C args g :
  messages h !! code = Some r → codes h !! code = Some C →
  length args = required_count r →
  well_typed r args →
  renderable h code r args →
  ∃ e g', construct h C args g = (Ok e, g') ∧ get_code e = VStr code.
Proof.
  intros Hr HC Hlen Hty Hrender.
  destruct (getMessage_typed h code r C args (fresh (ctor_Base C) VUndefined)
              Hr HC Hlen Hty Hrender) as [msg Hm].
  destruct (registry_inv h code r C Hr HC) as [_ Hk].
  unfold construct. rewrite Hk.
  destruct (NodeError_Ok h (ctor_Base C) code args g msg Hm) as (g' & Hrun & _).
  eexists _, _. split; [exact Hrun | reflexivity].
Qed.

Lemma C1_witness :
  ∃ e g',
    construct sample_host (makeNodeErrorWithCode Error_ "ERR_INVALID_PACKAGE_TARGET")
      [VStr "/pkg/"; VStr "./a"; VStr "b"] frozen_global = (Ok e, g')
    ∧ get_code e = VStr "ERR_INVALID_PACKAGE_TARGET".
Proof.
  apply (C1_constructor_returns_coded_error sample_host
           "ERR_INVALID_PACKAGE_TARGET"
           (RuleFn ERR_INVALID_PACKAGE_TARGET_rule)).
  - reflexivity.
  - reflexivity.
  - reflexivity.
  - repeat constructor.
  - repeat apply conj.
    + intros _ target [= <-]. eexists. reflexivity.
    + discriminate.
    + discriminate.
Defined.

(* ===================================================================== *)
(** ** C2: the argument-count assertion                                   *)
(* ===================================================================== *)

(** C2, as stated, fails in one direction: a function rule accepts more
    arguments than it requires ("default options do not count").
    [ERR_MODULE_NOT_FOUND] requires two arguments; with three, message
    resolution produces a message. *)
Lemma C2_counterexample :
  messages sample_host !! "ERR_MODULE_NOT_FOUND"
    = Some (RuleFn ERR_MODULE_NOT_FOUND_rule)
  ∧ required_count (RuleFn ERR_MODULE_NOT_FOUND_rule) = 2
  ∧ length [VStr "x"; VStr "/base"; VStr "module"] = 3
  ∧ getMessage sample_host "ERR_MODULE_NOT_FOUND"
      [VStr "x"; VStr "/base"; VStr "module"] frozen_error
    = Ok "Cannot find module 'x' imported from /base".
Proof. repeat apply conj; reflexivity. Qed.

(** C2 (amended): for every registered code, message resolution fails
    with the argument-count assertion, whose message names the code and
    the two counts, when a string rule gets a number of arguments other
    than its placeholder count, and when a function rule gets fewer
    arguments than its required parameter count; a function rule that
    gets at least its required count is applied to the arguments without
    a count assertion. Every registered rule requires at least one
    argument, and one argument fewer than required always triggers the
    assertion. *)
Theorem C2_argument_count_assertion h code r args self :
  messages h !! code = Some r →
  match r with
  | RuleStr t =>
      length args ≠ count_placeholders t →
      getMessage h code args self
      = Throw (AssertionError
                 (Some (count_mismatch code (length args) (count_placeholders t))))
  | RuleFn f =>
      (length args < fn_length f →
       getMessage h code args self
       = Throw (AssertionError
                  (Some (count_mismatch code (length args) (fn_length f)))))
      ∧ (fn_length f ≤ length args →
         getMessage h code args self = apply_fn f args)
  end
  ∧ 1 ≤ required_count r
  ∧ (S (length args) = required_count r →
     getMessage h code args self
     = Throw (AssertionError
                (Some (count_mismatch code (length args) (required_count r))))).
Proof.
  intros Hr. split; [| split].
  - destruct r as [f | t].
    + split; intros Hn.
      * by apply getMessage_fn_few.
      * by apply getMessage_fn.
    + intros Hn. by apply getMessage_str_mismatch.
  - by apply (required_count_pos h code).
  - intros Hn. destruct r as [f | t]; cbn in Hn |- *.
    + apply getMessage_fn_few; [done | lia].
    + apply getMessage_str_mismatch; [done | lia].
Qed.

Lemma C2_witness :
  getMessage sample_host "ERR_UNKNOWN_FILE_EXTENSION" [VStr ".xyz"] frozen_error
  = Throw (AssertionError (Some
      ("Code: ERR_UNKNOWN_FILE_EXTENSION; The provided arguments length (1) " +:+
       "does not match the required ones (2)."))).
Proof.
  destruct (C2_argument_count_assertion sample_host "ERR_UNKNOWN_FILE_EXTENSION"
              (RuleStr ERR_UNKNOWN_FILE_EXTENSION_template) [VStr ".xyz"]
              frozen_error) as (_ & _ & H).
  - reflexivity.
  - apply H. reflexivity.
Defined.

(* ===================================================================== *)
(** ** C3: a code that was never registered                               *)
(* ===================================================================== *)

(** C3, as stated, fails: no assertion guards the lookup. For a code
    without a rule, [messages.get] gives [undefined], and the read of
    [message.match] throws a [TypeError], which is about the property
    [match] and names no code. *)
Lemma C3_counterexample :
  messages sample_host !! "ERR_NOT_REGISTERED" = None
  ∧ getMessage sample_host "ERR_NOT_REGISTERED" [] frozen_error
    = Throw (TypeError (ReadOfNullish "match"))
  ∧ ∀ m, getMessage sample_host "ERR_NOT_REGISTERED" [] frozen_error
         ≠ Throw (AssertionError m).
Proof. repeat apply conj; [reflexivity | reflexivity | intros m; discriminate]. Qed.

(** C3 (amended): for every code that was never registered and every
    argument list, message resolution fails and produces no message. The
    failure is not an assertion but the [TypeError] of reading [match] of
    [undefined]: one and the same exception for every unregistered code
    and every argument list, so that nothing in it names the offending
    code. A constructor made over such a code throws that [TypeError]
    too, and leaves [Error.stackTraceLimit] reading as before. *)
Theorem C3_unregistered_code_type_error h key args self :
  messages h !! key = None →
  getMessage h key args self = Throw (TypeError (ReadOfNullish "match"))
  ∧ (∀ m, getMessage h key args self ≠ Throw (AssertionError m))
  ∧ (∀ key' args' self',
       messages h !! key' = None →
       getMessage h key' args' self' = getMessage h key args self)
  ∧ (∀ Base g, ∃ g',
       NodeError h Base key args g
       = (Throw (TypeError (ReadOfNullish "match")), g')
       ∧ limit_of g' = limit_of g).
Proof.
  intros Hnone.
  assert (∀ k a s', messages h !! k = None →
            getMessage h k a s' = Throw (TypeError (ReadOfNullish "match")))
    as Hthrow.
  { intros k a s' Hk. unfold getMessage, getMessage_in. by rewrite Hk. }
  repeat apply conj.
  - by apply Hthrow.
  - intros m. rewrite Hthrow by done. discriminate.
  - intros key' args' self' Hk. by rewrite !Hthrow.
  - intros Base g.
    destruct (NodeError_run h Base key args g) as (g1 & g2 & Hrun & Hl & _).
    rewrite (Hthrow key args _ Hnone) in Hrun. eauto.
Qed.

Lemma C3_witness :
  getMessage sample_host "ERR_NOT_REGISTERED" [VStr "a"; VNull] frozen_error
  = Throw (TypeError (ReadOfNullish "match"))
  ∧ getMessage sample_host "ERR_ALSO_NOT" [] frozen_error
    = getMessage sample_host "ERR_NOT_REGISTERED" [VStr "a"; VNull] frozen_error.
Proof.
  destruct (C3_unregistered_code_type_error sample_host "ERR_NOT_REGISTERED"
              [VStr "a"; VNull] frozen_error) as (H1 & _ & H3 & _).
  - reflexivity.
  - split; [exact H1 |]. apply H3. reflexivity.
Defined.

(* ===================================================================== *)
(** ** C4: the frame limit around the capture                             *)
(* ===================================================================== *)

(** C4, as stated, fails: the restore is a plain statement after the
    capture, not a [finally]. On an error object that is not extensible
    [Error.captureStackTrace] throws, and the limit, [10] before the
    call, is left at [Infinity]. *)
Lemma C4_counterexample :
  ∃ g', captureLargerStackTrace frozen_error default_global = (Throw (TypeError CannotDefine), g')
      ∧ limit_of default_global = VNum (Int 10%Z)
      ∧ limit_of g' = VNum Infinity.
Proof. eexists. repeat apply conj; reflexivity. Qed.

(** C4 (amended): when the capture step succeeds,
    [captureLargerStackTrace] returns the error with a trace recorded
    under the raised limit, and [Error.stackTraceLimit] reads as it did
    before the call. When the limit is not writable the routine is the
    bare capture: the state is untouched, nothing is thrown on account of
    the limit, and the trace is recorded under the limit in force. When
    the capture step throws while the limit is writable, the throw leaves
    the routine and the limit stays raised. *)
Theorem C4_limit_restored_after_capture e g :
  (err_extensible e = true →
   ∃ g', captureLargerStackTrace e g
         = (Ok (set_err_stack e (Recorded (trace_limit g))), g')
       ∧ limit_of g' = limit_of g)
  ∧ (limit_writable g = false →
     captureLargerStackTrace e g = captureStackTrace e g
     ∧ (captureLargerStackTrace e g).2 = g
     ∧ (err_extensible e = true →
        (captureLargerStackTrace e g).1
        = Ok (set_err_stack e (Recorded (limit_of g)))))
  ∧ (err_extensible e = false → limit_writable g = true →
     ∃ g', captureLargerStackTrace e g = (Throw (TypeError CannotDefine), g')
         ∧ limit_of g' = raised_limit g).
Proof.
  split; [| split].
  - intros Hext.
    destruct (captureLargerStackTrace_run e g Hext) as (g' & Hrun & Hl & _).
    eauto.
  - intros Hw. unfold captureLargerStackTrace, captureStackTrace.
    run. rewrite Hw. destruct (err_extensible e); cbn; repeat split; done.
  - intros Hext Hw.
    unfold captureLargerStackTrace, captureStackTrace, raised_limit.
    destruct g as [[[v [] | cell [] []] |] [] u]; try discriminate Hw;
      run; rewrite Hext; cbn; eauto.
Qed.

Lemma C4_witness :
  (∃ g', captureLargerStackTrace (fresh Error_ (VNum (Int 0%Z))) default_global
         = (Ok (fresh Error_ (VNum Infinity)), g')
       ∧ limit_of g' = VNum (Int 10%Z))
  ∧ captureLargerStackTrace (fresh Error_ (VNum (Int 0%Z))) frozen_global
    = (Ok (fresh Error_ (VNum (Int 10%Z))), frozen_global)
  ∧ (∃ g', captureLargerStackTrace frozen_error default_global = (Throw (TypeError CannotDefine), g')
         ∧ limit_of g' = VNum Infinity).
Proof.
  split; [| split].
  - destruct (C4_limit_restored_after_capture
                (fresh Error_ (VNum (Int 0%Z))) default_global) as (H & _ & _).
    apply H. reflexivity.
  - destruct (C4_limit_restored_after_capture
                (fresh Error_ (VNum (Int 0%Z))) frozen_global) as (_ & H & _).
    destruct H as (H & _ & _); [reflexivity |].
    rewrite H. reflexivity.
  - destruct (C4_limit_restored_after_capture frozen_error default_global)
      as (_ & _ & H).
    apply H; reflexivity.
Defined.

(* ===================================================================== *)
(** ** C5: the string conversion                                          *)
(* ===================================================================== *)

(** C5: for every error a registered constructor returns, [toString()]
    is exactly [name], a space, the registered code in brackets, a colon
    and a space, and [message], read at the time of the call: also after
    [name] and [message] have been assigned anew. *)
Theorem C5_toString_name_code_message h code C args g e g' :
  codes h !! code = Some C →
  construct h C args g = (Ok e, g') →
  call_toString e
  = ToString (get_name e) +:+ " [" +:+ code +:+ "]: " +:+ ToString (get_message e)
  ∧ get_code e = VStr code
  ∧ ∀ n m, ∃ e2,
      (e1 ← assign_name e n; assign_message e1 m) = Ok e2
      ∧ get_name e2 = n ∧ get_message e2 = m
      ∧ call_toString e2 = ToString n +:+ " [" +:+ code +:+ "]: " +:+ ToString m.
Proof.
  intros HC Hrun.
  destruct (codes_inv h code C HC) as (r & _ & Hk).
  unfold construct in Hrun. rewrite Hk in Hrun.
  destruct (NodeError_Ok_inv h (ctor_Base C) code args g e g' Hrun)
    as (msg & _ & ->).
  split; [reflexivity | split; [reflexivity |]].
  intros n m. unfold finished, final_name, assign_name, assign_message.
  case_bool_decide; eexists; (split; [reflexivity |]); repeat split.
Qed.

Lemma C5_witness :
  call_toString sample_error
  = ToString (get_name sample_error) +:+ " [" +:+ "ERR_UNKNOWN_FILE_EXTENSION"
    +:+ "]: " +:+ ToString (get_message sample_error).
Proof.
  apply (C5_toString_name_code_message sample_host "ERR_UNKNOWN_FILE_EXTENSION"
           (makeNodeErrorWithCode TypeError_ "ERR_UNKNOWN_FILE_EXTENSION")
           sample_args default_global sample_error global_after);
    reflexivity.
Defined.

(* ===================================================================== *)
(** ** C6: the name around the trace                                      *)
(* ===================================================================== *)

(** A header formatted under a name that is not empty begins with it. *)
Lemma header_text_begins name msg :
  name ≠ "" → ∃ rest, header_text name msg = name +:+ rest.
Proof.
  intros Hne. unfold header_text.
  rewrite bool_decide_eq_false_2 by done.
  case_bool_decide.
  - exists EmptyString. symmetry. apply append_nil_r.
  - eauto.
Qed.

Lemma coded_name_nonempty (name code : string) : name +:+ " [" +:+ code +:+ "]" ≠ "".
Proof. destruct name; discriminate. Qed.

(** C6: [addCodeToName] records the trace, formats it while [name] is
    the base-kind name followed by the code in brackets, so that the
    header begins with that display name, and then resets [name]: for
    the base kind ["SystemError"] to that bare name, by a property
    definition that is not enumerable; for every other base kind to the
    empty string. *)
Theorem C6_name_reset_after_trace e name code g :
  err_extensible e = true → name_settable e →
  ∃ e' g' header rest,
    addCodeToName e name code g = (Ok e', g')
    ∧ err_stack e' = Formatted (trace_limit g) header
    ∧ header = (name +:+ " [" +:+ code +:+ "]") +:+ rest
    ∧ (name = "SystemError" →
       err_name e' = Some {| p_value := VStr "SystemError"; enumerable := false;
                             writable := true; configurable := true |})
    ∧ (name ≠ "SystemError" → get_name e' = VStr "").
Proof.
  intros Hext Hname.
  destruct (addCodeToName_run e name code g Hext Hname) as (g' & Hrun & _).
  destruct (header_text_begins (name +:+ " [" +:+ code +:+ "]") (message_text e)
              (coded_name_nonempty name code)) as [rest Hrest].
  eexists _, g', _, rest. split; [exact Hrun |].
  split; [reflexivity |]. split; [exact Hrest |].
  unfold renamed, final_name, get_name; cbn. split.
  - intros ->. reflexivity.
  - intros Hne. by rewrite bool_decide_eq_false_2.
Qed.

Lemma C6_witness :
  (∃ e' g' header rest,
     addCodeToName (fresh {| class_name := "SystemError" |} (VNum (Int 0%Z)))
       "SystemError" "ERR_X" default_global = (Ok e', g')
     ∧ err_stack e' = Formatted (VNum Infinity) header
     ∧ header = "SystemError [ERR_X]" +:+ rest
     ∧ err_name e' = Some {| p_value := VStr "SystemError"; enumerable := false;
                             writable := true; configurable := true |})
  ∧ (∃ e' g' header rest,
       addCodeToName (fresh TypeError_ (VNum (Int 0%Z)))
         "TypeError" "ERR_X" default_global = (Ok e', g')
       ∧ err_stack e' = Formatted (VNum Infinity) header
       ∧ header = "TypeError [ERR_X]" +:+ rest
       ∧ get_name e' = VStr "").
Proof.
  split.
  - destruct (C6_name_reset_after_trace
                (fresh {| class_name := "SystemError" |} (VNum (Int 0%Z)))
                "SystemError" "ERR_X" default_global)
      as (e' & g' & header & rest & Hrun & Hs & Hh & Hsys & _);
      [reflexivity | exact I |].
    exists e', g', header, rest. repeat split; try assumption.
    apply Hsys. reflexivity.
  - destruct (C6_name_reset_after_trace
                (fresh TypeError_ (VNum (Int 0%Z)))
                "TypeError" "ERR_X" default_global)
      as (e' & g' & header & rest & Hrun & Hs & Hh & _ & Hother);
      [reflexivity | exact I |].
    exists e', g', header, rest. repeat split; try assumption.
    apply Hother. discriminate.
Defined.

(* ===================================================================== *)
(** ** C7: the truncation in [ERR_INVALID_ARG_VALUE]                      *)
(* ===================================================================== *)

(** [s.slice(0, n)] of a string of at least [n] code units has [n] code
    units and is an initial segment of [s]. *)
Lemma slice0_length n s :
  n ≤ String.length s → String.length (slice0 n s) = n.
Proof.
  unfold slice0. revert s.
  induction n as [| n IH]; intros [| c s] Hle; cbn in *; try lia.
  rewrite IH; [reflexivity | lia].
Qed.

Lemma slice0_initial n s : ∃ rest, s = slice0 n s +:+ rest.
Proof.
  unfold slice0. revert s.
  induction n as [| n IH]; intros [| c s]; cbn.
  - by exists "".
  - by exists (String c s).
  - by exists "".
  - destruct (IH s) as [rest Hrest]. exists rest.
    rewrite append_String. by rewrite <- Hrest.
Qed.

(** The message of [ERR_INVALID_ARG_VALUE], whatever follows [name] and
    [value] in the argument list. *)
Lemma ERR_INVALID_ARG_VALUE_resolved h name v rest self :
  getMessage h "ERR_INVALID_ARG_VALUE" (VStr name :: v :: rest) self
  = (rendering ← inspect h v;
     Ok ("The " +:+ (if includes "." name then "property" else "argument") +:+
         " '" +:+ name +:+ "' " +:+ ToString (reason_of rest) +:+
         ". Received " +:+ embedded rendering)).
Proof.
  rewrite (getMessage_fn h "ERR_INVALID_ARG_VALUE" (ERR_INVALID_ARG_VALUE_rule h));
    [| reflexivity | cbn; lia].
  unfold apply_fn; cbn [fn_params fn_body ERR_INVALID_ARG_VALUE_rule].
  assert (bind_params
            [required "name" TString; required "value" TUnknown;
             optional "reason" TString (VStr "is invalid")]
            (VStr name :: v :: rest)
          = [VStr name; v; reason_of rest]) as ->.
  { destruct rest as [| [] rest]; reflexivity. }
  unfold ERR_INVALID_ARG_VALUE_message, inspected_of, embedded; cbn.
  destruct (inspect h v) as [rendering | x]; reflexivity.
Qed.

(** C7: in the message of [ERR_INVALID_ARG_VALUE], with or without a
    [reason] argument, the rendering of the value by [inspect] is
    embedded after [Received]: a rendering longer than 128 characters as
    exactly its first 128 characters followed by ["..."], a rendering of
    128 characters or fewer unchanged. *)
Theorem C7_inspected_value_truncated h name v rest self rendering :
  inspect h v = Ok rendering →
  getMessage h "ERR_INVALID_ARG_VALUE" (VStr name :: v :: rest) self
  = Ok ("The " +:+ (if includes "." name then "property" else "argument") +:+
        " '" +:+ name +:+ "' " +:+ ToString (reason_of rest) +:+
        ". Received " +:+ embedded rendering)
  ∧ getMessage h "ERR_INVALID_ARG_VALUE" [VStr name; v] self
    = Ok ("The " +:+ (if includes "." name then "property" else "argument") +:+
          " '" +:+ name +:+ "' is invalid. Received " +:+ embedded rendering)
  ∧ (128 < String.length rendering →
     embedded rendering = slice0 128 rendering +:+ "..."
     ∧ String.length (slice0 128 rendering) = 128
     ∧ ∃ tl, rendering = slice0 128 rendering +:+ tl)
  ∧ (String.length rendering ≤ 128 → embedded rendering = rendering).
Proof.
  intros Hinsp. repeat apply conj.
  - rewrite ERR_INVALID_ARG_VALUE_resolved, Hinsp. reflexivity.
  - rewrite ERR_INVALID_ARG_VALUE_resolved, Hinsp. reflexivity.
  - intros Hlong. unfold embedded.
    destruct (Nat.ltb_spec 128 (String.length rendering)) as [_ | Hle]; [| lia].
    split; [reflexivity |]. split.
    + apply slice0_length. lia.
    + apply slice0_initial.
  - intros Hshort. unfold embedded.
    destruct (Nat.ltb_spec 128 (String.length rendering)) as [Hlt | _];
      [lia | reflexivity].
Qed.

Lemma C7_witness :
  getMessage sample_host "ERR_INVALID_ARG_VALUE"
    [VStr "opts.x"; VStr (a_string 500); VStr "must be short"] frozen_error
  = Ok ("The property 'opts.x' must be short. Received '" +:+ a_string 127 +:+ "...")
  ∧ getMessage sample_host "ERR_INVALID_ARG_VALUE"
      [VStr "x"; VStr "short"] frozen_error
    = Ok "The argument 'x' is invalid. Received 'short'".
Proof.
  split.
  - destruct (C7_inspected_value_truncated sample_host "opts.x"
                (VStr (a_string 500)) [VStr "must be short"] frozen_error
                ("'" +:+ a_string 500 +:+ "'")) as (H & _ & Hlong & _);
      [reflexivity |].
    destruct Hlong as (Hemb & _ & _); [vm_compute; lia |].
    rewrite H, Hemb. vm_compute. reflexivity.
  - destruct (C7_inspected_value_truncated sample_host "x"
                (VStr "short") [] frozen_error "'short'") as (_ & H & _ & Hshort);
      [reflexivity |].
    rewrite H, Hshort; [reflexivity | vm_compute; lia].
Defined.

(* ===================================================================== *)
(** ** C8: the [ERR_UNKNOWN_FILE_EXTENSION] example                       *)
(* ===================================================================== *)

(** C8: [codes.ERR_UNKNOWN_FILE_EXTENSION] called with [".xyz"] and
    ["/a/b.xyz"] returns, on every host and in every state, an error
    whose message is the template with its two [%s] replaced from left to
    right, [Unknown file extension ".xyz" for /a/b.xyz], and whose [code]
    is ["ERR_UNKNOWN_FILE_EXTENSION"]. *)
Theorem C8_unknown_file_extension_example h g :
  ∃ C e g',
    codes h !! "ERR_UNKNOWN_FILE_EXTENSION" = Some C
    ∧ construct h C [VStr ".xyz"; VStr "/a/b.xyz"] g = (Ok e, g')
    ∧ get_message e
      = VStr ("Unknown file extension " +:+ dq +:+ ".xyz" +:+ dq +:+ " for /a/b.xyz")
    ∧ get_code e = VStr "ERR_UNKNOWN_FILE_EXTENSION".
Proof.
  destruct (NodeError_Ok h TypeError_ "ERR_UNKNOWN_FILE_EXTENSION"
              [VStr ".xyz"; VStr "/a/b.xyz"] g sample_message)
    as (g' & Hrun & _); [reflexivity |].
  eexists _, _, g'. split; [reflexivity |]. split; [exact Hrun |].
  split; reflexivity.
Qed.

(* ===================================================================== *)
(** ** C9: omitted optional parameters                                    *)
(* ===================================================================== *)

(** C9: for every registered function rule, a call with exactly the
    required arguments binds each remaining parameter to its declared
    default, and the message is the rule's body on the arguments followed
    by those defaults; [ERR_PACKAGE_PATH_NOT_EXPORTED] called with
    ["/pkg/"] and ["."] alone gives
    [No "exports" main defined in /pkg/package.json]. *)
Theorem C9_omitted_parameters_take_defaults h :
  (∀ code f args self,
     messages h !! code = Some (RuleFn f) →
     length args = fn_length f →
     bind_params (fn_params f) args = args ++ declared_defaults (fn_params f)
     ∧ length (args ++ declared_defaults (fn_params f)) = length (fn_params f)
     ∧ getMessage h code args self
       = fn_body f (args ++ declared_defaults (fn_params f)))
  ∧ (∀ g, ∃ C e g',
       codes h !! "ERR_PACKAGE_PATH_NOT_EXPORTED" = Some C
       ∧ construct h C [VStr "/pkg/"; VStr "."] g = (Ok e, g')
       ∧ get_message e
         = VStr ("No " +:+ dq +:+ "exports" +:+ dq +:+
                 " main defined in /pkg/package.json")).
Proof.
  split.
  - intros code f args self Hr Hlen.
    rewrite (getMessage_fn h code f args self Hr) by lia.
    unfold apply_fn.
    destruct (messages_inv h code _ Hr) as (P & def & Hin). clear Hr.
    registry_cases Hin.
    all: cbn in Hlen.
    all: repeat (destruct args as [| ? args]; try discriminate Hlen).
    all: repeat split; reflexivity.
  - intros g.
    destruct (NodeError_Ok h Error_ "ERR_PACKAGE_PATH_NOT_EXPORTED"
                [VStr "/pkg/"; VStr "."] g
                ("No " +:+ dq +:+ "exports" +:+ dq +:+
                 " main defined in /pkg/package.json"))
      as (g' & Hrun & _); [reflexivity |].
    eexists _, _, g'. split; [reflexivity |]. split; [exact Hrun | reflexivity].
Qed.

Lemma C9_witness :
  bind_params (fn_params ERR_MODULE_NOT_FOUND_rule) [VStr "x"; VStr "/base"]
  = [VStr "x"; VStr "/base"; VStr "package"]
  ∧ getMessage sample_host "ERR_MODULE_NOT_FOUND" [VStr "x"; VStr "/base"] frozen_error
    = Ok "Cannot find package 'x' imported from /base".
Proof.
  destruct (C9_omitted_parameters_take_defaults sample_host) as [H _].
  destruct (H "ERR_MODULE_NOT_FOUND" ERR_MODULE_NOT_FOUND_rule
              [VStr "x"; VStr "/base"] frozen_error) as (Hb & _ & Hm);
    [reflexivity | reflexivity |].
  split; [exact Hb | exact Hm].
Defined.

(* ===================================================================== *)
(** ** C10: the base kinds of the registered codes                        *)
(* ===================================================================== *)

(** C10: every constructor in [codes] was made over [Error] or
    [TypeError], never over a base named ["SystemError"]; so the [name]
    of every error such a constructor returns is the empty string, and
    its string conversion is a space, the code in brackets, a colon and a
    space, and then the message. *)
Theorem C10_registered_errors_have_empty_name h code C :
  codes h !! code = Some C →
  (ctor_Base C = Error_ ∨ ctor_Base C = TypeError_)
  ∧ class_name (ctor_Base C) ≠ "SystemError"
  ∧ ∀ args g e g',
      construct h C args g = (Ok e, g') →
      get_name e = VStr ""
      ∧ call_toString e = " [" +:+ code +:+ "]: " +:+ ToString (get_message e).
Proof.
  intros HC.
  destruct (codes_inv h code C HC) as (r & Hin & Hk).
  assert (ctor_Base C = Error_ ∨ ctor_Base C = TypeError_) as Hbase.
  { destruct C as [Base key]; cbn in *. clear HC Hk.
    registry_cases Hin; auto. }
  assert (class_name (ctor_Base C) ≠ "SystemError") as Hsys.
  { destruct Hbase as [-> | ->]; discriminate. }
  split; [exact Hbase | split; [exact Hsys |]].
  intros args g e g' Hrun.
  unfold construct in Hrun. rewrite Hk in Hrun.
  destruct (NodeError_Ok_inv h (ctor_Base C) code args g e g' Hrun)
    as (msg & _ & ->).
  unfold call_toString, get_name, finished, final_name; cbn.
  rewrite bool_decide_eq_false_2 by exact Hsys.
  split; reflexivity.
Qed.

Lemma C10_witness :
  get_name sample_error = VStr ""
  ∧ call_toString sample_error
    = " [" +:+ "ERR_UNKNOWN_FILE_EXTENSION" +:+ "]: " +:+
      ToString (get_message sample_error).
Proof.
  destruct (C10_registered_errors_have_empty_name sample_host
              "ERR_UNKNOWN_FILE_EXTENSION"
              (makeNodeErrorWithCode TypeError_ "ERR_UNKNOWN_FILE_EXTENSION"))
    as (_ & _ & H); [reflexivity |].
  apply (H sample_args default_global sample_error global_after).
  reflexivity.
Defined.

(* ===================================================================== *)
(** ** Further properties: the constructor and the frame limit            *)
(* ===================================================================== *)

Lemma restored_facts g :
  limit_of (restored g) = limit_of g
  ∧ limit_writable (restored g) = limit_writable g
  ∧ trace_limit (restored g) = trace_limit g.
Proof. by destruct g as [[[v [] | cell [] []] |] [] u]. Qed.

Lemma settled_facts g :
  limit_of (settled g) = limit_of g
  ∧ limit_writable (settled g) = limit_writable g
  ∧ trace_limit (settled g) = trace_limit g.
Proof. by destruct g as [[[v [] | cell [] []] |] [] u]. Qed.

(** The run of [NodeError], with the state it leaves. *)
Lemma NodeError_final h Base key args g :
  NodeError h Base key args g =
  match getMessage h key args (fresh Base VUndefined) with
  | Ok msg => (Ok (finished Base key msg (trace_limit g)), settled g)
  | Throw x => (Throw x, restored g)
  end.
Proof.
  unfold NodeError.
  destruct g as [[[v [] | cell [] []] |] [] u].
  all: unfold mbind, M_bind, read_limit, isErrorStackTraceLimitWritable, new_, lift;
    cbn -[getMessage addCodeToName].
  all: match goal with
       | |- context [getMessage ?h' ?k ?a ?e] =>
           change (getMessage h' k a e)
             with (getMessage h' k a (fresh Base VUndefined))
       end.
  all: destruct (getMessage h key args (fresh Base VUndefined)) as [msg | x];
    [| reflexivity].
  all: unfold addCodeToName, captureLargerStackTrace, captureStackTrace; run.
  all: unfold finished, final_name; cbn; case_bool_decide; reflexivity.
Qed.

Lemma NodeError_state_facts h Base key args g :
  limit_of (NodeError h Base key args g).2 = limit_of g
  ∧ limit_writable (NodeError h Base key args g).2 = limit_writable g
  ∧ trace_limit (NodeError h Base key args g).2 = trace_limit g.
Proof.
  rewrite NodeError_final.
  destruct (getMessage h key args (fresh Base VUndefined)) as [msg | x]; cbn.
  - apply settled_facts.
  - apply restored_facts.
Qed.

(** X1: a constructor throws exactly when message resolution throws, and
    then throws the same exception; otherwise it returns the finished
    error. On both paths [Error.stackTraceLimit] reads afterwards as it
    did before, and is writable exactly if it was. *)
Theorem X1_constructor_throws_what_resolution_throws h Base key args g :
  (NodeError h Base key args g).1
  = match getMessage h key args (fresh Base VUndefined) with
    | Ok msg => Ok (finished Base key msg (trace_limit g))
    | Throw x => Throw x
    end
  ∧ limit_of (NodeError h Base key args g).2 = limit_of g
  ∧ limit_writable (NodeError h Base key args g).2 = limit_writable g.
Proof.
  destruct (NodeError_state_facts h Base key args g) as (Hl & Hw & _).
  split; [| split; assumption].
  rewrite NodeError_final.
  by destruct (getMessage h key args (fresh Base VUndefined)).
Qed.

(** X2: when [Error.stackTraceLimit] is not writable, a constructor call
    leaves the whole global state as it found it (the limit, the
    extensibility of [Error], and the module's [userStackTraceLimit]),
    whether it returns or throws. *)
Theorem X2_unwritable_limit_state_untouched h Base key args g :
  limit_writable g = false →
  (NodeError h Base key args g).2 = g.
Proof.
  intros Hw. rewrite NodeError_final. unfold settled, restored. rewrite Hw.
  by destruct (getMessage h key args (fresh Base VUndefined)).
Qed.

Lemma X2_witness :
  (NodeError sample_host TypeError_ "ERR_UNKNOWN_FILE_EXTENSION" sample_args
     frozen_global).2 = frozen_global.
Proof.
  apply (X2_unwritable_limit_state_untouched sample_host). reflexivity.
Defined.

(** X3: [isErrorStackTraceLimitWritable] is true exactly when a strict
    assignment to [Error.stackTraceLimit] succeeds: where it is true the
    assignment goes through, the limit stays writable and, if it can be
    read back, reads as the value assigned; where it is false the
    assignment would throw a [TypeError] and change nothing. *)
Theorem X3_guard_decides_assignment v g :
  (limit_writable g = true →
   ∃ g', write_limit v g = (Ok tt, g')
       ∧ limit_writable g' = true
       ∧ (limit_readable g → limit_of g' = v))
  ∧ (limit_writable g = false → write_limit v g = (Throw (TypeError CannotAssign), g)).
Proof.
  unfold write_limit, limit_readable.
  destruct g as [[[v' [] | cell [] []] |] [] u]; cbn; split; intros H;
    try discriminate H; try reflexivity;
    eexists; (split; [reflexivity |]); (split; [reflexivity |]);
    intros Hr; try reflexivity; by destruct (Hr cell true).
Qed.

Lemma X3_witness :
  (∃ g', write_limit (VNum (Int 0%Z)) default_global = (Ok tt, g')
       ∧ limit_writable g' = true ∧ limit_of g' = VNum (Int 0%Z))
  ∧ write_limit (VNum (Int 0%Z)) frozen_global = (Throw (TypeError CannotAssign), frozen_global).
Proof.
  split.
  - destruct (X3_guard_decides_assignment (VNum (Int 0%Z)) default_global)
      as [H _].
    destruct H as (g' & Hrun & Hw & Hread); [reflexivity |].
    exists g'. repeat apply conj; [exact Hrun | exact Hw |].
    apply Hread. intros cell has_set. discriminate.
  - destruct (X3_guard_decides_assignment (VNum (Int 0%Z)) frozen_global)
      as [_ H].
    apply H. reflexivity.
Defined.

(** X4: constructions do not interfere: whatever an earlier constructor
    call did (returned or threw), a later call gives the result it would
    have given in the state before the earlier one, and the limit still
    reads as it did then. *)
Theorem X4_constructions_do_not_interfere h B1 k1 a1 B2 k2 a2 g :
  (NodeError h B2 k2 a2 (NodeError h B1 k1 a1 g).2).1
  = (NodeError h B2 k2 a2 g).1
  ∧ limit_of (NodeError h B2 k2 a2 (NodeError h B1 k1 a1 g).2).2 = limit_of g.
Proof.
  destruct (NodeError_state_facts h B1 k1 a1 g) as (Hl & _ & Ht).
  set (g1 := (NodeError h B1 k1 a1 g).2) in *.
  destruct (NodeError_state_facts h B2 k2 a2 g1) as (Hl2 & _).
  split; [| congruence].
  rewrite (NodeError_final h B2 k2 a2 g1), (NodeError_final h B2 k2 a2 g), Ht.
  by destruct (getMessage h k2 a2 (fresh B2 VUndefined)).
Qed.

(* ===================================================================== *)
(** ** Further properties: the error object                               *)
(* ===================================================================== *)

Lemma append_assoc (s t u : string) : (s +:+ t) +:+ u = s +:+ t +:+ u.
Proof.
  induction s as [| c s IH]; [reflexivity |].
  by rewrite !append_String, IH.
Qed.

Lemma length_append (s t : string) :
  String.length (s +:+ t) = String.length s + String.length t.
Proof.
  induction s as [| c s IH]; [reflexivity |].
  rewrite append_String. cbn. by rewrite IH.
Qed.

(** What [util.format] returns for a template that begins with a
    character other than [%] is not empty. *)
Lemma format_nonempty h c tl args s :
  c ≠ "%"%char → format h (String c tl) args = Ok s → s ≠ "".
Proof.
  intros Hc. unfold format.
  destruct args as [| v args]; [intros [= <-]; discriminate |].
  cbn [format_go]. rewrite bool_decide_eq_false_2 by done.
  destruct (format_go h tl (v :: args)) as [[s0 a] |]; cbn; [| discriminate].
  destruct (format_tail h a); cbn; [| discriminate].
  intros [= <-]. discriminate.
Qed.

Ltac rule_nonempty :=
  let H := fresh "H" in
  intros H; unfold apply_fn in H; cbn [fn_body] in H;
  repeat match type of H with
         | context [bool_decide ?P] => destruct (bool_decide P)
         | context [strict_eq_str ?a ?b] => destruct (strict_eq_str a b)
         | context [isWindows ?h] => destruct (isWindows h)
         | context [JSON_stringify ?t] => destruct (JSON_stringify t)
         | context [call_includes_dot ?a] => destruct (call_includes_dot a)
         | context [inspect ?h ?v] => destruct (inspect h v)
         | context [get_protocol ?a] => destruct (get_protocol a)
         | context [get_length ?a] => destruct (get_length a)
         | _ => progress cbn [mbind result_bind rbind assert] in H
         end;
  try discriminate H; injection H as <-; discriminate.

(** No rule of the module resolves to the empty message. *)
Lemma getMessage_nonempty h code args self msg :
  getMessage h code args self = Ok msg → msg ≠ "".
Proof.
  unfold getMessage, getMessage_in.
  destruct (messages h !! code) as [r |] eqn:Hr; [| discriminate].
  destruct (messages_inv h code r Hr) as (P & def & Hin). clear Hr.
  registry_cases Hin.
  all: unfold assert.
  all: match goal with
       | |- context [if ?c then _ else _] => destruct c; [| discriminate]
       end.
  all: cbn [mbind result_bind rbind].
  all: try (destruct (length args =? 0);
            [intros [= <-]; discriminate
            | intros Hf; refine (format_nonempty h _ _ _ _ _ Hf); discriminate]).
  - unfold ERR_INVALID_MODULE_SPECIFIER_rule, ERR_INVALID_MODULE_SPECIFIER_message.
    rule_nonempty.
  - unfold ERR_INVALID_PACKAGE_CONFIG_rule, ERR_INVALID_PACKAGE_CONFIG_message.
    rule_nonempty.
  - unfold ERR_INVALID_PACKAGE_TARGET_rule, ERR_INVALID_PACKAGE_TARGET_message.
    rule_nonempty.
  - unfold ERR_MODULE_NOT_FOUND_rule, ERR_MODULE_NOT_FOUND_message.
    rule_nonempty.
  - unfold ERR_PACKAGE_IMPORT_NOT_DEFINED_rule, ERR_PACKAGE_IMPORT_NOT_DEFINED_message.
    rule_nonempty.
  - unfold ERR_PACKAGE_PATH_NOT_EXPORTED_rule, ERR_PACKAGE_PATH_NOT_EXPORTED_message.
    rule_nonempty.
  - unfold ERR_INVALID_ARG_VALUE_rule, ERR_INVALID_ARG_VALUE_message, inspected_of.
    rule_nonempty.
  - unfold ERR_UNSUPPORTED_ESM_URL_SCHEME_rule, ERR_UNSUPPORTED_ESM_URL_SCHEME_message.
    rule_nonempty.
Qed.

Lemma codes_base h code C :
  codes h !! code = Some C → class_name (ctor_Base C) ≠ "SystemError".
Proof.
  intros HC. destruct (codes_inv h code C HC) as (r & Hin & _).
  destruct C as [B k]; cbn in *. clear HC.
  registry_cases Hin; discriminate.
Qed.

(** X5: where [Error.stackTraceLimit] is a number held by a data
    property, the message of an error that a registered constructor
    returns is never empty, and the header line its trace was formatted
    with is the name of its base class followed by what its [toString()]
    returns: the trace shows [TypeError [CODE]: message] although [name]
    ends up empty. The trace was recorded under [trace_limit]: the raised
    limit where the limit is writable, the limit in force where it is
    not. *)
Theorem X5_trace_header_is_class_and_toString h code C args g e g' :
  limit_is_number g →
  codes h !! code = Some C →
  construct h C args g = (Ok e, g') →
  get_message e ≠ VStr ""
  ∧ err_stack e
    = Formatted (trace_limit g) (class_name (ctor_Base C) +:+ call_toString e).
Proof.
  intros _ HC Hrun.
  pose proof (codes_base h code C HC) as Hsys.
  destruct (codes_inv h code C HC) as (r & _ & Hk).
  unfold construct in Hrun. rewrite Hk in Hrun.
  destruct (NodeError_Ok_inv h (ctor_Base C) code args g e g' Hrun)
    as (msg & Hm & ->).
  apply getMessage_nonempty in Hm.
  split; [cbn; congruence |].
  unfold call_toString, get_name, get_message, finished, final_name; cbn.
  rewrite (bool_decide_eq_false_2 (class_name (ctor_Base C) = "SystemError"))
    by done.
  cbn. f_equal. unfold header_text.
  rewrite bool_decide_eq_false_2 by apply coded_name_nonempty.
  rewrite bool_decide_eq_false_2 by done.
  by rewrite !append_assoc.
Qed.

Lemma X5_witness :
  get_message sample_error ≠ VStr ""
  ∧ err_stack sample_error
    = Formatted (VNum Infinity) ("TypeError" +:+ call_toString sample_error).
Proof.
  apply (X5_trace_header_is_class_and_toString sample_host
           "ERR_UNKNOWN_FILE_EXTENSION"
           (makeNodeErrorWithCode TypeError_ "ERR_UNKNOWN_FILE_EXTENSION")
           sample_args default_global sample_error global_after);
    [by exists (Int 10%Z), true | reflexivity | reflexivity].
Defined.

(** X6: on the error that a registered constructor returns, [message] is
    an own property that is writable and configurable but not enumerable,
    while [code] and the emptied [name] are own properties that are
    enumerable as well; the object stays extensible. *)
Theorem X6_own_property_attributes h code C args g e g' :
  codes h !! code = Some C →
  construct h C args g = (Ok e, g') →
  (∃ msg, getMessage h code args e = Ok msg
        ∧ err_message e = Some {| p_value := VStr msg; enumerable := false;
                                  writable := true; configurable := true |})
  ∧ err_code e = Some {| p_value := VStr code; enumerable := true;
                         writable := true; configurable := true |}
  ∧ err_name e = Some {| p_value := VStr ""; enumerable := true;
                         writable := true; configurable := true |}
  ∧ err_extensible e = true.
Proof.
  intros HC Hrun.
  pose proof (codes_base h code C HC) as Hsys.
  destruct (codes_inv h code C HC) as (r & _ & Hk).
  unfold construct in Hrun. rewrite Hk in Hrun.
  destruct (NodeError_Ok_inv h (ctor_Base C) code args g e g' Hrun)
    as (msg & Hm & ->).
  split; [exists msg; split; [exact Hm | reflexivity] |].
  split; [reflexivity |]. split; [| reflexivity].
  unfold finished, final_name; cbn.
  by rewrite (bool_decide_eq_false_2 (class_name (ctor_Base C) = "SystemError")).
Qed.

Lemma X6_witness :
  err_message sample_error
  = Some {| p_value := VStr sample_message; enumerable := false;
            writable := true; configurable := true |}
  ∧ err_code sample_error
    = Some {| p_value := VStr "ERR_UNKNOWN_FILE_EXTENSION"; enumerable := true;
              writable := true; configurable := true |}
  ∧ err_name sample_error
    = Some {| p_value := VStr ""; enumerable := true;
              writable := true; configurable := true |}.
Proof.
  destruct (X6_own_property_attributes sample_host "ERR_UNKNOWN_FILE_EXTENSION"
              (makeNodeErrorWithCode TypeError_ "ERR_UNKNOWN_FILE_EXTENSION")
              sample_args default_global sample_error global_after)
    as (_ & Hc & Hn & _); [reflexivity | reflexivity |].
  split; [reflexivity | split; [exact Hc | exact Hn]].
Defined.

(* ===================================================================== *)
(** ** Further properties: arguments and rules                            *)
(* ===================================================================== *)

Lemma bind_params_undefined ps args :
  bind_params ps (args ++ [VUndefined]) = bind_params ps args.
Proof.
  revert args. induction ps as [| p ps IH]; intros args; [reflexivity |].
  destruct args as [| a args]; cbn.
  - reflexivity.
  - f_equal. apply IH.
Qed.

Lemma bind_params_surplus ps args extra :
  length ps ≤ length args →
  bind_params ps (args ++ extra) = bind_params ps args.
Proof.
  revert args. induction ps as [| p ps IH]; intros args Hle; [reflexivity |].
  destruct args as [| a args]; cbn in *; [lia |].
  f_equal. apply IH. lia.
Qed.

Lemma leading_required_le ps : leading_required ps ≤ length ps.
Proof.
  induction ps as [| p ps IH]; simpl; [lia |].
  destruct (p_default p); simpl; lia.
Qed.

(** X7: for a function rule that has its required arguments, a trailing
    [undefined] is the same as no argument: the message, or the
    exception, is the one of the call without it. *)
Theorem X7_trailing_undefined_is_omission h code f args self :
  messages h !! code = Some (RuleFn f) →
  fn_length f ≤ length args →
  getMessage h code (args ++ [VUndefined]) self = getMessage h code args self.
Proof.
  intros Hr Hle.
  rewrite (getMessage_fn h code f (args ++ [VUndefined]) self Hr)
    by (rewrite length_app; lia).
  rewrite (getMessage_fn h code f args self Hr) by lia.
  unfold apply_fn. by rewrite bind_params_undefined.
Qed.

Lemma X7_witness :
  getMessage sample_host "ERR_MODULE_NOT_FOUND"
    ([VStr "x"; VStr "/base"] ++ [VUndefined]) frozen_error
  = getMessage sample_host "ERR_MODULE_NOT_FOUND" [VStr "x"; VStr "/base"]
      frozen_error.
Proof.
  apply (X7_trailing_undefined_is_omission sample_host "ERR_MODULE_NOT_FOUND"
           ERR_MODULE_NOT_FOUND_rule).
  - reflexivity.
  - cbn. lia.
Defined.

(** X8: a function rule ignores the arguments beyond its parameter list:
    they change neither the message nor the exception. *)
Theorem X8_surplus_arguments_ignored h code f args extra self :
  messages h !! code = Some (RuleFn f) →
  length (fn_params f) ≤ length args →
  getMessage h code (args ++ extra) self = getMessage h code args self.
Proof.
  intros Hr Hle.
  pose proof (leading_required_le (fn_params f)) as Hlen.
  fold (fn_length f) in Hlen.
  rewrite (getMessage_fn h code f (args ++ extra) self Hr)
    by (rewrite length_app; lia).
  rewrite (getMessage_fn h code f args self Hr) by lia.
  unfold apply_fn. by rewrite bind_params_surplus.
Qed.

Lemma X8_witness :
  getMessage sample_host "ERR_MODULE_NOT_FOUND"
    ([VStr "x"; VStr "/base"; VStr "module"] ++ [VNull; VBool true]) frozen_error
  = getMessage sample_host "ERR_MODULE_NOT_FOUND"
      [VStr "x"; VStr "/base"; VStr "module"] frozen_error.
Proof.
  apply (X8_surplus_arguments_ignored sample_host "ERR_MODULE_NOT_FOUND"
           ERR_MODULE_NOT_FOUND_rule).
  - reflexivity.
  - cbn. lia.
Defined.

Lemma imported_from_falsy base : ToBoolean base = false → imported_from base = "".
Proof. intros H. unfold imported_from. by rewrite H. Qed.

(** X9: in the three rules with an optional [base], a [base] that is
    falsy ([undefined], [null], [false], [0], [NaN], [0n], the empty
    string) is the same as no [base]: no [imported from] part is
    written. *)
Theorem X9_falsy_base_is_no_base
    h request reason pkgPath subpath key target isImport base self :
  ToBoolean base = false →
  getMessage h "ERR_INVALID_MODULE_SPECIFIER" [request; reason; base] self
  = getMessage h "ERR_INVALID_MODULE_SPECIFIER" [request; reason] self
  ∧ getMessage h "ERR_PACKAGE_PATH_NOT_EXPORTED" [pkgPath; subpath; base] self
    = getMessage h "ERR_PACKAGE_PATH_NOT_EXPORTED" [pkgPath; subpath] self
  ∧ getMessage h "ERR_INVALID_PACKAGE_TARGET"
      [pkgPath; key; target; isImport; base] self
    = getMessage h "ERR_INVALID_PACKAGE_TARGET"
        [pkgPath; key; target; isImport] self.
Proof.
  intros Hb.
  assert (match base with VUndefined => VUndefined | _ => base end = base) as Hd
    by (by destruct base).
  repeat apply conj.
  - rewrite !(getMessage_fn h _ ERR_INVALID_MODULE_SPECIFIER_rule);
      [| reflexivity | cbn; lia | reflexivity | cbn; lia].
    unfold apply_fn; cbn. rewrite Hd.
    unfold ERR_INVALID_MODULE_SPECIFIER_message.
    by rewrite (imported_from_falsy base Hb).
  - rewrite !(getMessage_fn h _ ERR_PACKAGE_PATH_NOT_EXPORTED_rule);
      [| reflexivity | cbn; lia | reflexivity | cbn; lia].
    unfold apply_fn; cbn. rewrite Hd.
    unfold ERR_PACKAGE_PATH_NOT_EXPORTED_message.
    by rewrite (imported_from_falsy base Hb).
  - rewrite !(getMessage_fn h _ ERR_INVALID_PACKAGE_TARGET_rule);
      [| reflexivity | cbn; lia | reflexivity | cbn; lia].
    unfold apply_fn; cbn. rewrite Hd.
    unfold ERR_INVALID_PACKAGE_TARGET_message.
    by rewrite (imported_from_falsy base Hb).
Qed.

Lemma X9_witness :
  getMessage sample_host "ERR_INVALID_MODULE_SPECIFIER"
    [VStr "./x"; VStr "is not a valid path"; VStr ""] frozen_error
  = getMessage sample_host "ERR_INVALID_MODULE_SPECIFIER"
      [VStr "./x"; VStr "is not a valid path"] frozen_error.
Proof.
  destruct (X9_falsy_base_is_no_base sample_host
              (VStr "./x") (VStr "is not a valid path")
              VNull VNull VNull VNull VNull (VStr "") frozen_error) as [H _].
  - reflexivity.
  - exact H.
Defined.

(** X10: the two template rules, given two arguments of any kind,
    replace their two [%s] from left to right by what [util.format]
    renders of the arguments under [%s], and append nothing: every
    argument is consumed by a placeholder. When a rendering throws (the
    [toString] of an object, say), message resolution throws the same,
    the first argument's before the second's. A string argument is put
    in as it is. *)
Theorem X10_templates_consume_both_arguments h v1 v2 self :
  getMessage h "ERR_UNSUPPORTED_DIR_IMPORT" [v1; v2] self
  = (a ← format_arg h "s" v1; b ← format_arg h "s" v2;
     Ok ("Directory import '" +:+ a +:+
         "' is not supported resolving ES modules imported from " +:+ b))
  ∧ getMessage h "ERR_UNKNOWN_FILE_EXTENSION" [v1; v2] self
    = (a ← format_arg h "s" v1; b ← format_arg h "s" v2;
       Ok ("Unknown file extension " +:+ dq +:+ a +:+ dq +:+ " for " +:+ b))
  ∧ ∀ s, format_arg h "s" (VStr s) = Ok s.
Proof.
  split; [| split; [| reflexivity]].
  - rewrite (getMessage_str h _ ERR_UNSUPPORTED_DIR_IMPORT_template);
      [| reflexivity | reflexivity].
    cbn [length Nat.eqb]. unfold format. rewrite format_go_DIR_IMPORT.
    destruct (format_arg h "s" v1) as [a |]; [| reflexivity].
    destruct (format_arg h "s" v2) as [b |]; [| reflexivity].
    cbn. by rewrite !append_nil_r.
  - rewrite (getMessage_str h _ ERR_UNKNOWN_FILE_EXTENSION_template);
      [| reflexivity | reflexivity].
    cbn [length Nat.eqb]. unfold format. rewrite format_go_FILE_EXTENSION.
    destruct (format_arg h "s" v1) as [a |]; [| reflexivity].
    destruct (format_arg h "s" v2) as [b |]; [| reflexivity].
    cbn. rewrite !append_nil_r. reflexivity.
Qed.

(** X11: the two maps of the module agree: every constructor in [codes]
    closes over the code it is stored under and has a rule under it in
    [messages], so no constructor of the module can meet a missing rule;
    every rule has its constructor; and the ten registrations put ten
    rules into [messages], none replacing another. *)
Theorem X11_codes_and_messages_agree h :
  (∀ code C, codes h !! code = Some C →
     ctor_key C = code ∧ is_Some (messages h !! code))
  ∧ (∀ code r, messages h !! code = Some r → is_Some (codes h !! code))
  ∧ size (messages h) = length (registrations h).
Proof.
  repeat apply conj.
  - intros code C HC. destruct (codes_inv h code C HC) as (r & Hin & Hk).
    split; [exact Hk |]. clear HC Hk. destruct C as [B k]; cbn in Hin.
    registry_cases Hin; eexists; reflexivity.
  - intros code r Hr. destruct (messages_inv h code r Hr) as (P & def & Hin).
    clear Hr. registry_cases Hin; eexists; reflexivity.
  - rewrite messages_unfold.
    rewrite !map_size_insert_None; [by rewrite map_size_empty | ..];
      rewrite ?lookup_insert_ne by done; apply lookup_empty.
Qed.

Lemma X11_witness :
  ctor_key (makeNodeErrorWithCode Error_ "ERR_MODULE_NOT_FOUND")
  = "ERR_MODULE_NOT_FOUND"
  ∧ is_Some (messages sample_host !! "ERR_MODULE_NOT_FOUND")
  ∧ is_Some (codes sample_host !! "ERR_MODULE_NOT_FOUND").
Proof.
  destruct (X11_codes_and_messages_agree sample_host) as (H1 & H2 & _).
  destruct (H1 "ERR_MODULE_NOT_FOUND"
              (makeNodeErrorWithCode Error_ "ERR_MODULE_NOT_FOUND"))
    as [Hk Hm]; [reflexivity |].
  split; [exact Hk | split; [exact Hm |]].
  apply (H2 "ERR_MODULE_NOT_FOUND" (RuleFn ERR_MODULE_NOT_FOUND_rule)).
  reflexivity.
Defined.

(** X12: the platform flag reaches one message only. For every code other
    than [ERR_UNSUPPORTED_ESM_URL_SCHEME], registered or not, message
    resolution is the same on Windows and off it; and for that code it is
    the same too unless the [protocol] of the URL has exactly two code
    units. *)
Theorem X12_platform_reaches_one_rule windows h :
  (∀ code args self,
     code ≠ "ERR_UNSUPPORTED_ESM_URL_SCHEME" →
     getMessage (with_platform windows h) code args self
     = getMessage h code args self)
  ∧ (∀ href protocol self,
       String.length protocol ≠ 2 →
       getMessage (with_platform windows h) "ERR_UNSUPPORTED_ESM_URL_SCHEME"
         [VUrl href protocol] self
       = getMessage h "ERR_UNSUPPORTED_ESM_URL_SCHEME" [VUrl href protocol] self).
Proof.
  split.
  - intros code args self Hne.
    assert (messages (with_platform windows h) !! code = messages h !! code) as Hm.
    { rewrite !messages_unfold.
      rewrite !(lookup_insert_ne _ "ERR_UNSUPPORTED_ESM_URL_SCHEME") by done.
      reflexivity. }
    unfold getMessage, getMessage_in. rewrite Hm.
    destruct (messages h !! code) as [[f | t] |]; reflexivity.
  - intros href protocol self Hlen.
    rewrite (getMessage_fn _ _ (ERR_UNSUPPORTED_ESM_URL_SCHEME_rule
                                  (with_platform windows h)));
      [| reflexivity | cbn; lia].
    rewrite (getMessage_fn _ _ (ERR_UNSUPPORTED_ESM_URL_SCHEME_rule h));
      [| reflexivity | cbn; lia].
    unfold apply_fn; cbn. unfold ERR_UNSUPPORTED_ESM_URL_SCHEME_message; cbn.
    assert (bool_decide (VNum (Int (Z.of_nat (String.length protocol)))
                         = VNum (Int 2%Z)) = false) as Hb.
    { apply bool_decide_eq_false_2. intros [= Heq]. lia. }
    destruct windows, (isWindows h); cbn; rewrite ?Hb; reflexivity.
Qed.

Lemma X12_witness :
  getMessage (with_platform true sample_host) "ERR_INVALID_ARG_VALUE"
    [VStr "a.b"; VNull] frozen_error
  = getMessage sample_host "ERR_INVALID_ARG_VALUE" [VStr "a.b"; VNull] frozen_error
  ∧ getMessage (with_platform true sample_host) "ERR_UNSUPPORTED_ESM_URL_SCHEME"
      [VUrl "https://a/" "https:"] frozen_error
    = getMessage sample_host "ERR_UNSUPPORTED_ESM_URL_SCHEME"
        [VUrl "https://a/" "https:"] frozen_error.
Proof.
  destruct (X12_platform_reaches_one_rule true sample_host) as [H1 H2].
  split.
  - apply H1. discriminate.
  - apply H2. cbn. lia.
Defined.

Lemma embedded_length rendering : String.length (embedded rendering) ≤ 131.
Proof.
  unfold embedded.
  destruct (Nat.ltb_spec 128 (String.length rendering)) as [Hlt | Hle]; [| lia].
  rewrite length_append, slice0_length by lia. cbn. lia.
Qed.

(** X13: the message of [ERR_INVALID_ARG_VALUE] is bounded whatever the
    value: however long [inspect] renders it, with or without a [reason]
    argument, the message has at most 158 code units beyond those of
    [name] and of the reason (131 of them for the embedded rendering). *)
Theorem X13_embedded_rendering_bounded h name v rest self msg :
  getMessage h "ERR_INVALID_ARG_VALUE" (VStr name :: v :: rest) self = Ok msg →
  String.length msg
  ≤ String.length name + String.length (ToString (reason_of rest)) + 158.
Proof.
  rewrite ERR_INVALID_ARG_VALUE_resolved.
  destruct (inspect h v) as [rendering | x]; [| discriminate].
  intros [= <-]. rewrite !length_append.
  pose proof (embedded_length rendering).
  destruct (includes "." name); cbn; lia.
Qed.

Lemma X13_witness :
  String.length
    ("The argument 'x' wrong. Received '" +:+ a_string 127 +:+ "...")
  ≤ String.length "x" + String.length "wrong" + 158.
Proof.
  apply (X13_embedded_rendering_bounded sample_host "x" (VStr (a_string 500))
           [VStr "wrong"] frozen_error).
  vm_compute. reflexivity.
Defined.

(** X14: [ERR_INVALID_PACKAGE_TARGET] for the main entry, key ["."], is
    for exports only: with an [isImport] argument that is given and is
    not exactly [false], the rule's own [assert(isImport === false)]
    fails, and no message is produced, whatever the other arguments. *)
Theorem X14_main_target_is_for_exports h pkgPath target isImport rest self :
  isImport ≠ VUndefined → isImport ≠ VBool false →
  getMessage h "ERR_INVALID_PACKAGE_TARGET"
    (pkgPath :: VStr "." :: target :: isImport :: rest) self
  = Throw (AssertionError None).
Proof.
  intros Hu Hf.
  rewrite (getMessage_fn h _ ERR_INVALID_PACKAGE_TARGET_rule);
    [| reflexivity | cbn; lia].
  unfold apply_fn; cbn.
  assert (match isImport with VUndefined => VBool false | _ => isImport end
          = isImport) as -> by (by destruct isImport).
  unfold ERR_INVALID_PACKAGE_TARGET_message; cbn.
  rewrite (bool_decide_eq_true_2 ("." = ".")) by done.
  by rewrite (bool_decide_eq_false_2 (isImport = VBool false)).
Qed.

Lemma X14_witness :
  getMessage sample_host "ERR_INVALID_PACKAGE_TARGET"
    [VStr "/pkg/"; VStr "."; VStr "./main.js"; VBool true] frozen_error
  = Throw (AssertionError None).
Proof.
  apply (X14_main_target_is_for_exports sample_host); discriminate.
Defined.

(** X15: what [createError] registers is what [getMessage] finds. A
    template without placeholders, once registered, resolves with no
    argument to the template itself, unformatted, and with any argument
    to the count assertion; and registering one code leaves the
    resolution of every other code unchanged. *)
Theorem X15_createError_then_getMessage h msgs sym t def self :
  count_placeholders t = 0 →
  getMessage_in h (createError sym (RuleStr t) def msgs).1 sym [] self = Ok t
  ∧ (∀ v args,
       getMessage_in h (createError sym (RuleStr t) def msgs).1 sym (v :: args) self
       = Throw (AssertionError
                  (Some (count_mismatch sym (S (length args)) 0))))
  ∧ (∀ key args,
       key ≠ sym →
       getMessage_in h (createError sym (RuleStr t) def msgs).1 key args self
       = getMessage_in h msgs key args self).
Proof.
  intros Hc. unfold getMessage_in, createError; cbn [fst].
  repeat apply conj.
  - rewrite lookup_insert_eq, Hc. reflexivity.
  - intros v args. rewrite lookup_insert_eq, Hc. reflexivity.
  - intros key args Hne. by rewrite lookup_insert_ne.
Qed.

Lemma X15_witness :
  getMessage_in sample_host
    (createError "ERR_SURE" (RuleStr "100%% sure") Error_ (messages sample_host)).1
    "ERR_SURE" [] frozen_error
  = Ok "100%% sure".
Proof.
  destruct (X15_createError_then_getMessage sample_host (messages sample_host)
              "ERR_SURE" "100%% sure" Error_ frozen_error) as [H _].
  - reflexivity.
  - exact H.
Defined.
